(** * scrapligo [transport]: the timeout guard and the [System] transport

    A shallow embedding of [transport/base.go] (the sentinel errors,
    [transportResult], [transportTimeout]) and of the pty-subprocess
    transport [System] ([buildOpenCmd], [Open], [OpenNetconf], [Close],
    [read], [Read], [ReadN], [Write], [IsAlive]).

    Conventions.
    - Go [int], [time.Duration] (an [int64] count of nanoseconds) are [Z].
    - A Go slice is [slice A]: the nil slice [snil] or a slice [sl xs];
      the code tests [t.OpenCmd == nil] and returns both [nil] and
      [make([]byte, 0)], which have the same length but are different values.
    - Go [error] values are [option GoError], [None] being [nil].
    - Methods with a pointer receiver are computations in a state monad over
      the receiver, the platform (process table, files) and the log. *)

From Stdlib Require Import ZArith List String Ascii Bool Lia DecimalString.
From Stdlib.Strings Require Import Byte.
Import ListNotations.

Set Implicit Arguments.
Open Scope string_scope.
Open Scope list_scope.
Open Scope Z_scope.

(* ================================================================== *)
(** ** Go values *)

(** A Go slice value: [nil], or a slice with the given elements. *)
Inductive slice (A : Type) : Type :=
| snil : slice A
| sl (xs : list A) : slice A.
Arguments snil {A}.
Arguments sl {A} xs.

(** The elements of a slice ([nil] has none). *)
Definition elems {A} (s : slice A) : list A :=
  match s with snil => [] | sl xs => xs end.

(** Go [len(s)]. *)
Definition len {A} (s : slice A) : Z := Z.of_nat (List.length (elems s)).

(** Go [s == nil]. *)
Definition is_nil {A} (s : slice A) : bool :=
  match s with snil => true | sl _ => false end.

(** Go [append(s, xs...)] with at least one appended element never
    returns nil; the callers below always append at least one. *)
Definition append {A} (s : slice A) (xs : list A) : slice A :=
  sl (elems s ++ xs).

(** Go [make([]byte, n)]: [n] zero bytes; it panics ([None]) when [n] is
    negative.  Go also panics for a length above what the platform can
    allocate; the model leaves this limit out and gives every length that
    is not negative its buffer. *)
Definition make_bytes (n : Z) : option (list byte) :=
  if n <? 0 then None else Some (repeat x00 (Z.to_nat n)).

(** Go error values.  The four sentinels of [base.go] are created by
    [errors.New], so each is different from every other error value; the
    remaining constructors are the errors of the platform: [io.EOF],
    [os.ErrInvalid] (what the methods of a nil [os.File] pointer return) and any
    other operating-system error, identified by its message. *)
Inductive GoError : Type :=
| ErrTransportFailure
| ErrUnknownTransport
| ErrTransportTimeout
| ErrKeyVerificationFailed
| io_EOF
| os_ErrInvalid
| os_Error (msg : string).

(** The message of each sentinel, as passed to [errors.New]. *)
Definition Error (e : GoError) : string :=
  match e with
  | ErrTransportFailure => "error reading from transport, cannot continue"
  | ErrUnknownTransport => "unknown transport provided"
  | ErrTransportTimeout => "transport operation timed out"
  | ErrKeyVerificationFailed => "ssh key verification failed"
  | io_EOF => "EOF"
  | os_ErrInvalid => "invalid argument"
  | os_Error msg => msg
  end.

Definition ReadSize : Z := 65535.
Definition SystemTransportName : string := "system".
Definition StandardTransportName : string := "standard".

(* ================================================================== *)
(** ** Formatting: [fmt.Sprintf] with [%d] and [%s], [Duration.Seconds] *)

(** [fmt.Sprintf("%d", x)]: decimal digits, with a leading minus sign for
    a negative number. *)
Definition Sprintf_d (x : Z) : string := NilZero.string_of_int (Z.to_int x).

(** [fmt.Sprintf("%s", xs)] for a [[]string]: the elements separated by
    one space, in square brackets. *)
Definition Sprintf_s (xs : list string) : string :=
  ("[" ++ String.concat " " xs ++ "]")%string.

Module Float64.

(** A finite binary64 value [m * 2^e]. *)
Definition t : Type := (Z * Z)%type.

(** The integer nearest to [p / d], ties to even ([0 <= p], [0 < d]). *)
Definition nearest_even (p d : Z) : Z :=
  let q := p / d in
  let r := p mod d in
  if 2 * r <? d then q
  else if d <? 2 * r then q + 1
  else if Z.even q then q else q + 1.

(** [a / d >= 2^k], for [0 < a], [0 < d]. *)
Definition ge_pow2 (a d k : Z) : bool :=
  d * 2 ^ Z.max 0 k <=? a * 2 ^ Z.max 0 (- k).

(** Round the rational [p / d] ([0 < d]) to binary64, to nearest and
    ties to even, with a 53-bit significand.  The exponent range is not
    modelled: the values rounded below are zero or lie between [1e-9]
    and [1e10] in magnitude, far from overflow and from subnormals. *)
Definition round (p d : Z) : t :=
  if p =? 0 then (0, 0)
  else
    let a := Z.abs p in
    let k0 := Z.log2 a - Z.log2 d in
    let k := if ge_pow2 a d k0 then k0 else k0 - 1 in
    let e := k - 52 in
    (Z.sgn p * nearest_even (a * 2 ^ Z.max 0 (- e)) (d * 2 ^ Z.max 0 e), e).

(** [float64(x)] for an integer below [2^53] in magnitude is exact;
    in general it rounds. *)
Definition of_int (x : Z) : t := round x 1.

(** The rational [num / den] that a value stands for. *)
Definition num (x : t) : Z := fst x * 2 ^ Z.max 0 (snd x).
Definition den (x : t) : Z := 2 ^ Z.max 0 (- snd x).

Definition add (x y : t) : t :=
  round (num x * den y + num y * den x) (den x * den y).

(** Division by a positive value. *)
Definition div (x y : t) : t :=
  round (num x * den y) (den x * num y).

(** Go [int(x)]: the fractional part is discarded (truncation toward
    zero). *)
Definition to_int (x : t) : Z := Z.quot (num x) (den x).

End Float64.

(** [time.Second], in nanoseconds. *)
Definition Second : Z := 1000000000.

(** [time.Duration.Seconds]:
    [sec := d / Second; nsec := d % Second;
     return float64(sec) + float64(nsec)/1e9]
    (Go's [/] and [%] on integers truncate toward zero). *)
Definition Seconds (d : Z) : Float64.t :=
  let sec := Z.quot d Second in
  let nsec := Z.rem d Second in
  Float64.add (Float64.of_int sec)
              (Float64.div (Float64.of_int nsec) (Float64.of_int Second)).

(* ================================================================== *)
(** ** [base.go]: transport arguments and results *)

(** [BaseTransportArgs].  The two timeouts are held through pointers in
    the source so that the driver can change them; the record holds the
    value read through the pointer at the time of the call.  The fields
    [PtyHeight] and [PtyWidth], which [Open] reads, are not declared in the
    source at hand: they are the caller-supplied rows and columns of the
    pseudo-terminal, Go [int]s that [Open] converts to [uint16]. *)
Record BaseTransportArgs : Type := {
  Host : string;
  Port : Z;
  AuthUsername : string;
  TimeoutSocket : Z;
  TimeoutTransport : Z;
  PtyHeight : Z;
  PtyWidth : Z
}.

(** [transportResult] ([error] is named [error] in the source). *)
Record transportResult : Type := {
  result : slice byte;
  error : option GoError
}.

(** [SystemTransportArgs]. *)
Record SystemTransportArgs : Type := {
  AuthPrivateKey : string;
  AuthStrictKey : bool;
  SSHConfigFile : string;
  SSHKnownHostsFile : string
}.

(* ================================================================== *)
(** ** [base.go]: the timeout guard *)

(** What running the operation [f] on its goroutine does: [f()] returns
    [r] some time after the call (in nanoseconds, as [time.Duration]), or
    it never returns (a read that hangs). *)
Inductive worker : Type :=
| Returns (after : N) (r : transportResult)
| Blocked.

(** The two cases of the [select], and which of them Go's pseudo-random
    selection takes when both can proceed. *)
Inductive select_case : Type :=
| case_c (r : transportResult)
| case_timer.

Inductive choice : Type := choose_c | choose_timer.

(** The buffered channel [c] at the instant [now]: the goroutine
    [r := f(); c <- r; close(c)] has put [r] in the buffer once [f] has
    returned; before that, and forever when [f] never returns, a receive
    on [c] cannot proceed. *)
Definition c_at (f : worker) (now : Z) : option transportResult :=
  match f with
  | Returns after r => if Z.of_N after <=? now then Some r else None
  | Blocked => None
  end.

(** [time.NewTimer(timeout)]: the channel [timer.C] receives the time once
    [timeout] has elapsed; a timer with a zero or negative duration has
    expired as soon as it is created. *)
Definition timer_C_at (timeout now : Z) : bool := Z.max 0 timeout <=? now.

(** The first instant at which some case of the [select] can proceed; the
    caller is taken to reach the [select] at instant 0, without delay. *)
Definition wake (timeout : Z) (f : worker) : Z :=
  match f with
  | Returns after _ => Z.min (Z.of_N after) (Z.max 0 timeout)
  | Blocked => Z.max 0 timeout
  end.

(** Go's [select] over [case r := <-c] and [case <-timer.C]: the one case
    that can proceed is taken; when both can, one of them is chosen
    ([pick]); when none can, the statement still blocks ([None]). *)
Definition select (pick : choice) (c : option transportResult)
    (timer_C : bool) : option select_case :=
  match c, timer_C with
  | Some r, true =>
      Some (match pick with choose_c => case_c r | choose_timer => case_timer end)
  | Some r, false => Some (case_c r)
  | None, true => Some case_timer
  | None, false => None
  end.

(** [transportTimeout(timeout, f)]: what the call returns, [None] if the
    [select] never proceeds. *)
Definition transportTimeout (timeout : Z) (f : worker) (pick : choice)
    : option (slice byte * option GoError) :=
  let now := wake timeout f in
  match select pick (c_at f now) (timer_C_at timeout now) with
  | Some (case_c r) => Some (result r, error r)
  | Some case_timer => Some (sl [], Some ErrTransportTimeout)
  | None => None
  end.

(* ================================================================== *)
(** ** The platform: processes on a pseudo-terminal, files, the log *)

(** An open [os.File] (the master side of the pseudo-terminal). *)
Inductive File : Type := mkFile (fd : Z).

(** [exec.Command(name, arg...)]. *)
Record Cmd : Type := { cmd_name : string; cmd_args : list string }.

Definition exec_Command (name : string) (args : list string) : Cmd :=
  {| cmd_name := name; cmd_args := args |}.

(** [pty.Winsize], two [uint16]. *)
Record Winsize : Type := { Rows : Z; Cols : Z }.

(** Go [uint16(x)] for an [int]: the low 16 bits. *)
Definition uint16 (x : Z) : Z := x mod 2 ^ 16.

(** What [pty.Start] and [pty.StartWithSize] return: the file of the
    started process with a nil error, or a nil file with the error. *)
Inductive StartResult : Type :=
| Started (f : File)
| StartFailed (err : GoError).

(** What a [Read] on an open file does: it returns after some time with
    the bytes the stream had for it and an error or nil, or it blocks
    forever. *)
Inductive StreamRead : Type :=
| stream_returns (after : N) (data : list byte) (err : option GoError)
| stream_blocks.

(** The operations of the platform that the transport calls, over a
    platform state [OS] that each call may change. *)
Class Platform (OS : Type) : Type := {
  pty_start : Cmd -> option Winsize -> OS -> StartResult * OS;
  file_close : File -> OS -> option GoError * OS;
  file_read : File -> Z -> OS -> StreamRead * OS;
  file_write : File -> list byte -> OS -> option GoError * OS
}.

(** The two functions of the [logging] package that the transport calls. *)
Inductive Logger : Type := LogDebug | LogError.

(** What the program does to the outside, in the order it does it.
    [FormatLogMessage] is not in the source at hand: a log event keeps the
    level and the message that are passed to it. *)
Inductive Event : Type :=
| EvLog (logger : Logger) (level msg : string)
| EvSpawn (command : Cmd) (size : option Winsize)
| EvClose (f : File)
| EvRead (f : File) (n : Z)
| EvWrite (f : File) (b : list byte).

(* ================================================================== *)
(** ** [system.go]: the [System] transport *)

(** [System].  The fields [BaseTransportArgs] and [SystemTransportArgs]
    are named [BaseArgs] and [SystemArgs] here, their source names being
    those of the record types; both are pointers in the source and are
    taken to be non-nil. *)
Record System : Type := {
  BaseArgs : BaseTransportArgs;
  SystemArgs : SystemTransportArgs;
  fileObj : option File;
  OpenCmd : slice string;
  ExecCmd : string
}.

Definition set_OpenCmd (t : System) (c : slice string) : System :=
  {| BaseArgs := BaseArgs t; SystemArgs := SystemArgs t;
     fileObj := fileObj t; OpenCmd := c; ExecCmd := ExecCmd t |}.

Definition set_ExecCmd (t : System) (c : string) : System :=
  {| BaseArgs := BaseArgs t; SystemArgs := SystemArgs t;
     fileObj := fileObj t; OpenCmd := OpenCmd t; ExecCmd := c |}.

Definition set_fileObj (t : System) (f : option File) : System :=
  {| BaseArgs := BaseArgs t; SystemArgs := SystemArgs t;
     fileObj := f; OpenCmd := OpenCmd t; ExecCmd := ExecCmd t |}.

(** A [System] as a caller outside the package can construct it: the
    exported fields are set, the unexported [fileObj] is nil. *)
Definition NewSystem (b : BaseTransportArgs) (s : SystemTransportArgs)
    (openCmd : slice string) (execCmd : string) : System :=
  {| BaseArgs := b; SystemArgs := s; fileObj := None;
     OpenCmd := openCmd; ExecCmd := execCmd |}.

(** Go [s != ""]. *)
Definition nonempty (s : string) : bool := negb (String.eqb s "").

(** The arguments that one run of [buildOpenCmd] appends, in order. *)
Definition openArgs (b : BaseTransportArgs) (s : SystemTransportArgs)
    : list string :=
  [ Host b; "-p"; Sprintf_d (Port b);
    "-o";
    String.append "ConnectTimeout="
      (Sprintf_d (Float64.to_int (Seconds (TimeoutSocket b))));
    "-o";
    String.append "ServerAliveInterval="
      (Sprintf_d (Float64.to_int (Seconds (TimeoutTransport b)))) ]
  ++ (if nonempty (AuthPrivateKey s) then ["-i"; AuthPrivateKey s] else [])
  ++ (if nonempty (AuthUsername b) then ["-l"; AuthUsername b] else [])
  ++ (if negb (AuthStrictKey s)
      then ["-o"; "StrictHostKeyChecking=no";
            "-o"; "UserKnownHostsFile=/dev/null"]
      else ["-o"; "StrictHostKeyChecking=yes"]
           ++ (if nonempty (SSHKnownHostsFile s)
               then ["-o"; String.append "UserKnownHostsFile="
                                          (SSHKnownHostsFile s)]
               else []))
  ++ (if nonempty (SSHConfigFile s) then ["-F"; SSHConfigFile s]
      else ["-F"; "/dev/null"]).

(** [buildOpenCmd], statement by statement: each step is
    [t.OpenCmd = append(t.OpenCmd, ...)]. *)
Definition buildOpenCmd (t : System) : System :=
  let b := BaseArgs t in
  let s := SystemArgs t in
  let t :=
    set_OpenCmd t
      (append (OpenCmd t)
         [ Host b; "-p"; Sprintf_d (Port b);
           "-o";
           String.append "ConnectTimeout="
             (Sprintf_d (Float64.to_int (Seconds (TimeoutSocket b))));
           "-o";
           String.append "ServerAliveInterval="
             (Sprintf_d (Float64.to_int (Seconds (TimeoutTransport b)))) ]) in
  let t :=
    if nonempty (AuthPrivateKey s)
    then set_OpenCmd t (append (OpenCmd t) ["-i"; AuthPrivateKey s])
    else t in
  let t :=
    if nonempty (AuthUsername b)
    then set_OpenCmd t (append (OpenCmd t) ["-l"; AuthUsername b])
    else t in
  let t :=
    if negb (AuthStrictKey s)
    then set_OpenCmd t
           (append (OpenCmd t)
              ["-o"; "StrictHostKeyChecking=no";
               "-o"; "UserKnownHostsFile=/dev/null"])
    else
      let t :=
        set_OpenCmd t
          (append (OpenCmd t) ["-o"; "StrictHostKeyChecking=yes"]) in
      if nonempty (SSHKnownHostsFile s)
      then set_OpenCmd t
             (append (OpenCmd t)
                ["-o"; String.append "UserKnownHostsFile="
                                     (SSHKnownHostsFile s)])
      else t in
  if nonempty (SSHConfigFile s)
  then set_OpenCmd t (append (OpenCmd t) ["-F"; SSHConfigFile s])
  else set_OpenCmd t (append (OpenCmd t) ["-F"; "/dev/null"]).

(** What a call that may not return normally does. *)
Inductive outcome (A : Type) : Type :=
| Return (a : A)
| Panics
| BlocksForever.
Arguments Panics {A}.
Arguments BlocksForever {A}.

(** The state the methods of a [System] pointer run in: the receiver
    [self], the state of the platform and the events so far (oldest
    first). *)
Record state (OS : Type) : Type := {
  self : System;
  os : OS;
  trace : list Event
}.

(** The state monad of the methods. *)
Definition M (OS A : Type) : Type := state OS -> A * state OS.

Definition ret {OS A} (a : A) : M OS A := fun st => (a, st).

Definition bind {OS A B} (m : M OS A) (k : A -> M OS B) : M OS B :=
  fun st => let (a, st') := m st in k a st'.

Declare Scope go_scope.
Delimit Scope go_scope with go.
Notation "x <- m ;; k" := (bind m (fun x => k))
  (at level 61, m at next level, right associativity) : go_scope.
Notation "m ;; k" := (bind m (fun _ => k))
  (at level 61, right associativity) : go_scope.

(** The value and the final state of a computation. *)
Definition eval {OS A} (m : M OS A) (st : state OS) : A := fst (m st).
Definition exec {OS A} (m : M OS A) (st : state OS) : state OS := snd (m st).

Section Methods.

Context {OS : Type} {P : Platform OS}.

Local Open Scope go_scope.

(** Reading and updating the receiver. *)
Definition this : M OS System := fun st => (self st, st).

Definition update (f : System -> System) : M OS unit :=
  fun st => (tt, {| self := f (self st); os := os st; trace := trace st |}).

Definition emit (e : Event) : M OS unit :=
  fun st => (tt, {| self := self st; os := os st;
                    trace := trace st ++ [e] |}).

(** A call of the platform. *)
Definition syscall {A} (f : OS -> A * OS) : M OS A :=
  fun st => let (a, os') := f (os st) in
            (a, {| self := self st; os := os'; trace := trace st |}).

(** [logging.LogDebug(FormatLogMessage(args, level, msg))] and the same
    with [logging.LogError]. *)
Definition log (l : Logger) (level msg : string) : M OS unit :=
  emit (EvLog l level msg).

(** [pty.StartWithSize(command, size)], and [pty.Start(command)] when
    there is no size. *)
Definition pty_Start (command : Cmd) (size : option Winsize)
    : M OS StartResult :=
  emit (EvSpawn command size) ;;
  syscall (pty_start command size).

(** [Close] of an [os.File]: a nil file returns [os.ErrInvalid]. *)
Definition File_Close (f : option File) : M OS (option GoError) :=
  match f with
  | None => ret (Some os_ErrInvalid)
  | Some f => emit (EvClose f) ;; syscall (file_close f)
  end.

(** The buffer [b] after a read that had [data] for it: the first
    [min (len data) (len b)] bytes are overwritten, and that count. *)
Definition fill (b data : list byte) : list byte * Z :=
  let k := Nat.min (List.length data) (List.length b) in
  (firstn k data ++ skipn k b, Z.of_nat k).

(** What [f.Read(b)] does: when it returns, the buffer, the count of
    bytes read and the error. *)
Inductive ReadReply : Type :=
| read_returns (after : N) (b : list byte) (n : Z) (err : option GoError)
| read_blocks.

(** [Read(b)] of an [os.File]: a nil file returns [0, os.ErrInvalid]
    without waiting for anything; the model puts this at the instant 0,
    leaving out the time the worker takes to get there, which the source
    does not determine. *)
Definition File_Read (f : option File) (b : list byte) : M OS ReadReply :=
  match f with
  | None => ret (read_returns 0 b 0 (Some os_ErrInvalid))
  | Some f =>
      emit (EvRead f (Z.of_nat (List.length b))) ;;
      r <- syscall (file_read f (Z.of_nat (List.length b))) ;;
      ret (match r with
           | stream_returns after data err =>
               let (b', n) := fill b data in read_returns after b' n err
           | stream_blocks => read_blocks
           end)
  end.

(** [Write(b)] of an [os.File], its count dropped: a nil file returns
    [os.ErrInvalid]. *)
Definition File_Write (f : option File) (b : list byte)
    : M OS (option GoError) :=
  match f with
  | None => ret (Some os_ErrInvalid)
  | Some f => emit (EvWrite f b) ;; syscall (file_write f b)
  end.

(** The double quote that starts the two "attempting to open" messages. *)
Definition dquote : string := String (ascii_of_nat 34) EmptyString.

(** [Open]. *)
Definition Open : M OS (option GoError) :=
  t <- this ;;
  (if is_nil (OpenCmd t) then update buildOpenCmd else ret tt) ;;
  t <- this ;;
  (if String.eqb (ExecCmd t) "" then update (fun t => set_ExecCmd t "ssh")
   else ret tt) ;;
  t <- this ;;
  log LogDebug "debug"
    (String.append dquote
       (String.append
          "attempting to open transport connection with the following command: "
          (Sprintf_s (elems (OpenCmd t))))) ;;
  let command := exec_Command (ExecCmd t) (elems (OpenCmd t)) in
  r <- pty_Start command
         (Some {| Rows := uint16 (PtyHeight (BaseArgs t));
                  Cols := uint16 (PtyWidth (BaseArgs t)) |}) ;;
  match r with
  | StartFailed err =>
      log LogError "error" "failed opening transport connection to host" ;;
      ret (Some err)
  | Started f =>
      log LogDebug "debug" "transport connection to host opened" ;;
      update (fun t => set_fileObj t (Some f)) ;;
      ret None
  end.

(** [OpenNetconf]. *)
Definition OpenNetconf : M OS (option GoError) :=
  update buildOpenCmd ;;
  update (fun t => set_OpenCmd t (append (OpenCmd t) ["-tt"; "-s"; "netconf"])) ;;
  t <- this ;;
  log LogDebug "debug"
    (String.append dquote
       (String.append
          "attempting to open netconf transport connection with the following command: "
          (Sprintf_s (elems (OpenCmd t))))) ;;
  let command := exec_Command "ssh" (elems (OpenCmd t)) in
  r <- pty_Start command None ;;
  match r with
  | StartFailed err =>
      log LogError "error"
        "failed opening netconf transport connection to host" ;;
      ret (Some err)
  | Started f =>
      log LogDebug "debug" "netconf transport connection to host opened" ;;
      update (fun t => set_fileObj t (Some f)) ;;
      ret None
  end.

(** [Close]. *)
Definition Close : M OS (option GoError) :=
  t <- this ;;
  err <- File_Close (fileObj t) ;;
  update (fun t => set_fileObj t None) ;;
  log LogDebug "debug" "transport connection to host closed" ;;
  ret err.

(** [read(n)], run to the point where it returns: [None] when
    [make([]byte, n)] panics, else what the worker does.  The count that
    [t.fileObj.Read(b)] returns is dropped ([_, err := ...]). *)
Definition read (n : Z) : M OS (option worker) :=
  match make_bytes n with
  | None => ret None
  | Some b =>
      t <- this ;;
      r <- File_Read (fileObj t) b ;;
      ret (Some
             match r with
             | read_blocks => Blocked
             | read_returns after b' _ (Some _) =>
                 Returns after {| result := snil;
                                  error := Some ErrTransportFailure |}
             | read_returns after b' _ None =>
                 Returns after {| result := sl b'; error := None |}
             end)
  end.

(** The body shared by [Read] and [ReadN]: the guard around [t.read]
    with the size [n] (the call sites pass the method and its argument;
    the guard of [base.go] takes the operation they make up). *)
Definition readWithTimeout (n : Z) (pick : choice)
    : M OS (outcome (slice byte * option GoError)) :=
  t <- this ;;
  f <- read n ;;
  match f with
  | None => ret Panics
  | Some f =>
      match transportTimeout (TimeoutTransport (BaseArgs t)) f pick with
      | None => ret BlocksForever
      | Some (b, Some err) =>
          log LogError "error" "timed out reading from transport" ;;
          ret (Return (b, Some err))
      | Some (b, None) => ret (Return (b, None))
      end
  end.

(** [Read]. *)
Definition Read (pick : choice)
    : M OS (outcome (slice byte * option GoError)) :=
  readWithTimeout ReadSize pick.

(** [ReadN]. *)
Definition ReadN (n : Z) (pick : choice)
    : M OS (outcome (slice byte * option GoError)) :=
  readWithTimeout n pick.

(** [Write]. *)
Definition Write (channelInput : slice byte) : M OS (option GoError) :=
  t <- this ;;
  err <- File_Write (fileObj t) (elems channelInput) ;;
  match err with
  | Some e => ret (Some e)
  | None => ret None
  end.

(** [IsAlive]. *)
Definition IsAlive : M OS bool :=
  t <- this ;;
  ret (match fileObj t with Some _ => true | None => false end).

End Methods.

(* ================================================================== *)
(** ** A scripted platform *)

(** A platform whose calls answer as a fixed script says, used to run the
    methods on concrete inputs. *)
Record Script : Type := {
  on_start : Cmd -> StartResult;
  on_close : option GoError;
  on_read : StreamRead;
  on_write : option GoError
}.

#[export] Instance scripted : Platform Script := {|
  pty_start := fun command _ s => (on_start s command, s);
  file_close := fun _ s => (on_close s, s);
  file_read := fun _ _ s => (on_read s, s);
  file_write := fun _ _ s => (on_write s, s)
|}.

(** The state in which a method is first called on [t]. *)
Definition initial {OS} (t : System) (o : OS) : state OS :=
  {| self := t; os := o; trace := [] |}.

(** The commands spawned in a trace, oldest first. *)
Definition spawned (tr : list Event) : list Cmd :=
  flat_map (fun e => match e with EvSpawn c _ => [c] | _ => [] end) tr.

(** The receiver at the point where [Open] spawns: the argument vector
    built if it was nil, the program defaulted if it was empty. *)
Definition opening (t : System) : System :=
  let t := if is_nil (OpenCmd t) then buildOpenCmd t else t in
  if String.eqb (ExecCmd t) "" then set_ExecCmd t "ssh" else t.

(** The size [Open] starts the pseudo-terminal with. *)
Definition sizeOf (t : System) : option Winsize :=
  Some {| Rows := uint16 (PtyHeight (BaseArgs t));
          Cols := uint16 (PtyWidth (BaseArgs t)) |}.

(** The receiver at the point where [OpenNetconf] spawns. *)
Definition openingNetconf (t : System) : System :=
  let t := buildOpenCmd t in
  set_OpenCmd t (append (OpenCmd t) ["-tt"; "-s"; "netconf"]).

(** A fresh build: what [buildOpenCmd] makes of a nil argument vector. *)
Definition freshBuild (t : System) : list string :=
  elems (OpenCmd (buildOpenCmd (set_OpenCmd t snil))).

(** The pair that the guard returns when the timer wins. *)
Definition timedOut : slice byte * option GoError :=
  (sl [], Some ErrTransportTimeout).

(** The pair that the guard returns when the worker's result [r] wins. *)
Definition unwrapped (r : transportResult) : slice byte * option GoError :=
  (result r, error r).

(** Concrete inputs used in the examples below. *)
Definition fiveSeconds : Z := 5 * Second.
Definition thirtySeconds : Z := 30 * Second.
Definition fiftyMillis : Z := 50000000.

Definition exampleBase : BaseTransportArgs :=
  {| Host := "10.0.0.1"; Port := 22; AuthUsername := "admin";
     TimeoutSocket := fiveSeconds; TimeoutTransport := thirtySeconds;
     PtyHeight := 24; PtyWidth := 80 |}.

Definition exampleArgs : SystemTransportArgs :=
  {| AuthPrivateKey := ""; AuthStrictKey := false;
     SSHConfigFile := ""; SSHKnownHostsFile := "" |}.

Definition exampleSystem : System := NewSystem exampleBase exampleArgs snil "".

(** A [System] set up to run a shell in a container, with its own program
    and argument vector. *)
Definition dockerSystem : System :=
  NewSystem exampleBase exampleArgs (sl ["exec"; "-it"; "router1"; "sh"])
            "docker".

Definition helloResult : transportResult :=
  {| result := sl [x68; x69]; error := None |}.

(** A platform on which every spawn succeeds and a read returns two bytes
    after 5 ms. *)
Definition healthy : Script :=
  {| on_start := fun _ => Started (mkFile 3);
     on_close := None;
     on_read := stream_returns 5000000 [x68; x69] None;
     on_write := None |}.

(** A platform on which every spawn fails, a close fails and the stream
    has ended. *)
Definition broken : Script :=
  {| on_start := fun _ => StartFailed (os_Error "fork/exec: no such file");
     on_close := Some (os_Error "file already closed");
     on_read := stream_returns 0 [] (Some io_EOF);
     on_write := Some (os_Error "input/output error") |}.

(** [l] ends with the elements [tail]. *)
Definition ends_with {A} (l tail : list A) : Prop :=
  exists front, l = front ++ tail.

(** The receiver with another known-hosts path. *)
Definition set_SSHKnownHostsFile (t : System) (path : string) : System :=
  {| BaseArgs := BaseArgs t;
     SystemArgs :=
       {| AuthPrivateKey := AuthPrivateKey (SystemArgs t);
          AuthStrictKey := AuthStrictKey (SystemArgs t);
          SSHConfigFile := SSHConfigFile (SystemArgs t);
          SSHKnownHostsFile := path |};
     fileObj := fileObj t; OpenCmd := OpenCmd t; ExecCmd := ExecCmd t |}.

(** The receiver with other transport arguments, as a caller can set them
    between two calls. *)
Definition set_args (t : System) (b : BaseTransportArgs)
    (s : SystemTransportArgs) : System :=
  {| BaseArgs := b; SystemArgs := s;
     fileObj := fileObj t; OpenCmd := OpenCmd t; ExecCmd := ExecCmd t |}.

(** The events of a trace that close a file. *)
Definition closes (tr : list Event) : list File :=
  flat_map (fun e => match e with EvClose f => [f] | _ => [] end) tr.

(** The error lines of a trace. *)
Definition errorLines (tr : list Event) : list string :=
  flat_map (fun e => match e with EvLog LogError _ msg => [msg] | _ => [] end)
           tr.

(** A platform on which the stream never has anything to read. *)
Definition hung : Script :=
  {| on_start := fun _ => Started (mkFile 3);
     on_close := None;
     on_read := stream_blocks;
     on_write := None |}.

(** A platform on which a read returns two bytes after 40 s. *)
Definition slow : Script :=
  {| on_start := fun _ => Started (mkFile 3);
     on_close := None;
     on_read := stream_returns 40000000000 [x68; x69] None;
     on_write := None |}.

(** A platform on which the stream has ended, and the read says so only
    after 40 s. *)
Definition lateEOF : Script :=
  {| on_start := fun _ => Started (mkFile 3);
     on_close := None;
     on_read := stream_returns 40000000000 [] (Some io_EOF);
     on_write := None |}.

(* ================================================================== *)
(** * Properties *)

Unset Implicit Arguments.

(** ** Durations in seconds *)

(** Whole and fractional durations through [int(d.Seconds())], and the
    quotient 1/10 as binary64 rounds it. *)
Example Seconds_examples :
  Float64.to_int (Seconds (5 * Second)) = 5
  /\ Float64.to_int (Seconds (30 * Second)) = 30
  /\ Float64.to_int (Seconds 1500000000) = 1
  /\ Float64.to_int (Seconds (-1500000000)) = -1
  /\ Float64.to_int (Seconds 999999999) = 0
  /\ Float64.div (Float64.of_int 1) (Float64.of_int 10)
     = (7205759403792794, -56).
Proof. repeat split; vm_compute; reflexivity. Qed.

(** ** The timeout guard *)

Lemma select_at_wake (timeout : Z) (f : worker) :
  c_at f (wake timeout f) <> None \/ timer_C_at timeout (wake timeout f) = true.
Proof.
  unfold c_at, timer_C_at, wake.
  destruct f as [after r|].
  - destruct (Z.leb_spec (Z.of_N after) (Z.min (Z.of_N after) (Z.max 0 timeout)))
      as [_|Hlt]; [left; discriminate|].
    right. apply Z.leb_le. lia.
  - right. apply Z.leb_le. lia.
Qed.

(** The guard always returns: at the instant the [select] wakes, one of
    its cases can proceed. *)
Lemma transportTimeout_returns (timeout : Z) (f : worker) (pick : choice) :
  exists out, transportTimeout timeout f pick = Some out.
Proof.
  unfold transportTimeout.
  destruct (select_at_wake timeout f) as [Hc|Ht].
  - destruct (c_at f (wake timeout f)) as [r|]; [|congruence].
    destruct (timer_C_at timeout (wake timeout f)), pick; simpl; eauto.
  - rewrite Ht.
    destruct (c_at f (wake timeout f)) as [r|], pick; simpl; eauto.
Qed.

(** The worker wins when it returns strictly before the timer expires. *)
Lemma transportTimeout_worker_first timeout after r pick :
  Z.of_N after < Z.max 0 timeout ->
  transportTimeout timeout (Returns after r) pick = Some (unwrapped r).
Proof.
  intros H. unfold transportTimeout, wake, c_at, timer_C_at.
  rewrite Z.min_l by lia.
  rewrite Z.leb_refl.
  replace (Z.max 0 timeout <=? Z.of_N after) with false
    by (symmetry; apply Z.leb_gt; lia).
  reflexivity.
Qed.

(** The timer wins when it expires strictly before the worker returns,
    whatever the worker would return. *)
Lemma transportTimeout_timer_first timeout after r pick :
  Z.max 0 timeout < Z.of_N after ->
  transportTimeout timeout (Returns after r) pick = Some timedOut.
Proof.
  intros H. unfold transportTimeout, wake, c_at, timer_C_at.
  rewrite Z.min_r by lia.
  rewrite Z.leb_refl.
  replace (Z.of_N after <=? Z.max 0 timeout) with false
    by (symmetry; apply Z.leb_gt; lia).
  reflexivity.
Qed.

(** The timer wins when the worker never returns. *)
Lemma transportTimeout_blocked timeout pick :
  transportTimeout timeout Blocked pick = Some timedOut.
Proof.
  unfold transportTimeout, wake, c_at, timer_C_at.
  rewrite Z.leb_refl. reflexivity.
Qed.

(** When the worker returns at the instant the timer expires, both cases
    can proceed and the selection decides. *)
Lemma transportTimeout_tie timeout after r pick :
  Z.of_N after = Z.max 0 timeout ->
  transportTimeout timeout (Returns after r) pick =
  Some (match pick with choose_c => unwrapped r | choose_timer => timedOut end).
Proof.
  intros H. unfold transportTimeout, wake, c_at, timer_C_at.
  rewrite H, Z.min_id, Z.leb_refl. destruct pick; reflexivity.
Qed.

(** Whatever the timing, the guard returns the worker's pair or the
    timeout pair. *)
Lemma transportTimeout_cases timeout f pick :
  (exists after r, f = Returns after r /\
                   transportTimeout timeout f pick = Some (unwrapped r))
  \/ transportTimeout timeout f pick = Some timedOut.
Proof.
  destruct f as [after r|].
  - destruct (Z.lt_total (Z.of_N after) (Z.max 0 timeout)) as [H|[H|H]].
    + left. exists after, r. split; [reflexivity|].
      now apply transportTimeout_worker_first.
    + rewrite (transportTimeout_tie _ _ r pick H). destruct pick.
      * left. now exists after, r.
      * now right.
    + right. now apply transportTimeout_timer_first.
  - right. apply transportTimeout_blocked.
Qed.

(** C1 (as amended).  For every duration and every worker operation the
    guard returns, and what it returns is one of two pairs: the worker's
    payload and error unwrapped, or an empty (length 0) payload with
    [ErrTransportTimeout].  It is the worker's pair when the worker returns
    strictly before the timer expires; it is the timeout pair, whatever the
    worker would return later, when the timer expires strictly before the
    worker returns or the worker never returns; when the worker returns at
    the very instant the timer expires, both cases of the [select] can
    proceed and the selection decides between the two pairs. *)
Theorem transportTimeout_one_of_two (timeout : Z) (f : worker) (pick : choice) :
  (exists out,
      transportTimeout timeout f pick = Some out /\
      (out = timedOut \/ exists after r, f = Returns after r /\ out = unwrapped r))
  /\ (forall after r,
         f = Returns after r -> Z.of_N after < Z.max 0 timeout ->
         transportTimeout timeout f pick = Some (unwrapped r))
  /\ (f = Blocked \/
      (exists after r, f = Returns after r /\ Z.max 0 timeout < Z.of_N after) ->
      transportTimeout timeout f pick = Some timedOut)
  /\ (forall after r,
         f = Returns after r -> Z.of_N after = Z.max 0 timeout ->
         transportTimeout timeout f pick =
         Some (match pick with
               | choose_c => unwrapped r
               | choose_timer => timedOut
               end))
  /\ len (fst timedOut) = 0 /\ snd timedOut = Some ErrTransportTimeout.
Proof.
  split; [|split; [|split; [|split; [|split; reflexivity]]]].
  - destruct (transportTimeout_cases timeout f pick) as [(after & r & Hf & H)|H].
    + exists (unwrapped r). split; [exact H|]. right. now exists after, r.
    + exists timedOut. split; [exact H|]. now left.
  - intros after r -> H. now apply transportTimeout_worker_first.
  - intros [->|(after & r & -> & H)].
    + apply transportTimeout_blocked.
    + now apply transportTimeout_timer_first.
  - intros after r -> H. now apply transportTimeout_tie.
Qed.

(** The guard at 50 ms around a worker that returns after 10 ms, and around
    one that returns after 200 ms. *)
Lemma transportTimeout_one_of_two_witness :
  (Z.of_N 10000000 < Z.max 0 fiftyMillis /\
   transportTimeout fiftyMillis (Returns 10000000 helloResult) choose_timer
   = Some (unwrapped helloResult))
  /\ (Z.max 0 fiftyMillis < Z.of_N 200000000 /\
      transportTimeout fiftyMillis (Returns 200000000 helloResult) choose_c
      = Some timedOut).
Proof.
  split; (split; [reflexivity|]).
  - apply (proj1 (proj2 (transportTimeout_one_of_two
                           fiftyMillis (Returns 10000000 helloResult)
                           choose_timer)) 10000000%N helloResult eq_refl).
    reflexivity.
  - apply (proj1 (proj2 (proj2 (transportTimeout_one_of_two
                                  fiftyMillis (Returns 200000000 helloResult)
                                  choose_c)))).
    right. exists 200000000%N, helloResult. split; reflexivity.
Defined.

(** C1 as stated fails: with a duration of 50 ms and a worker that returns
    at 50 ms, the same call returns the worker's pair under one selection
    and the timeout pair under the other, and so does the call with a
    duration of zero around a worker that returns immediately: the
    duration and the worker do not decide which of the two outcomes the
    caller receives. *)
Lemma transportTimeout_tie_both_outcomes :
  transportTimeout fiftyMillis (Returns 50000000 helloResult) choose_c
  = Some (sl [x68; x69], None)
  /\ transportTimeout fiftyMillis (Returns 50000000 helloResult) choose_timer
     = Some (sl [], Some ErrTransportTimeout)
  /\ transportTimeout 0 (Returns 0 helloResult) choose_c
     = Some (sl [x68; x69], None)
  /\ transportTimeout 0 (Returns 0 helloResult) choose_timer
     = Some (sl [], Some ErrTransportTimeout)
  /\ (sl [x68; x69], @None GoError) <> (sl [], Some ErrTransportTimeout).
Proof.
  repeat split; try reflexivity. discriminate.
Qed.

(** C7 (as amended).  With a zero or negative duration the timer has
    expired when the [select] runs: the guard returns the timeout pair for
    every worker that has not returned at that instant (one that takes
    time, one that never returns); for a worker that returns immediately
    both cases can proceed, and the guard returns the timeout pair or the
    worker's pair as the selection decides. *)
Theorem transportTimeout_expired (timeout : Z) (f : worker) (pick : choice) :
  timeout <= 0 ->
  ((forall r, f <> Returns 0 r) ->
   transportTimeout timeout f pick = Some timedOut)
  /\ (forall r, f = Returns 0 r ->
        transportTimeout timeout f pick =
        Some (match pick with
              | choose_c => unwrapped r
              | choose_timer => timedOut
              end)).
Proof.
  intros Hd. split.
  - intros Hf. destruct f as [after r|].
    + apply transportTimeout_timer_first.
      assert (after <> 0%N) by (intros ->; now apply (Hf r)). lia.
    + apply transportTimeout_blocked.
  - intros r ->. apply transportTimeout_tie. lia.
Qed.

(** The guard with a duration of -1 ns around a worker that returns after
    1 ns. *)
Lemma transportTimeout_expired_witness :
  -1 <= 0 /\
  transportTimeout (-1) (Returns 1 helloResult) choose_c = Some timedOut.
Proof.
  split; [lia|].
  apply (proj1 (transportTimeout_expired (-1) (Returns 1 helloResult) choose_c
                  ltac:(lia))).
  intros r; discriminate.
Defined.

(** C7 as stated fails: with a duration of zero, and with a negative one,
    a worker that returns immediately can have its result returned, with a
    nil error, instead of the timeout error. *)
Lemma transportTimeout_expired_returns_result :
  transportTimeout 0 (Returns 0 helloResult) choose_c
  = Some (sl [x68; x69], None)
  /\ transportTimeout (-1) (Returns 0 helloResult) choose_c
     = Some (sl [x68; x69], None)
  /\ @None GoError <> Some ErrTransportTimeout.
Proof.
  repeat split; try reflexivity. discriminate.
Qed.

(** ** The command builder *)

(** [buildOpenCmd] changes the argument vector only. *)
Lemma buildOpenCmd_frame (t : System) :
  BaseArgs (buildOpenCmd t) = BaseArgs t
  /\ SystemArgs (buildOpenCmd t) = SystemArgs t
  /\ fileObj (buildOpenCmd t) = fileObj t
  /\ ExecCmd (buildOpenCmd t) = ExecCmd t.
Proof.
  unfold buildOpenCmd.
  destruct (nonempty (AuthPrivateKey (SystemArgs t))),
           (nonempty (AuthUsername (BaseArgs t))),
           (AuthStrictKey (SystemArgs t)),
           (nonempty (SSHKnownHostsFile (SystemArgs t))),
           (nonempty (SSHConfigFile (SystemArgs t)));
    repeat split.
Qed.

(** [buildOpenCmd] appends to the argument vector it finds, nil or not. *)
Lemma buildOpenCmd_appends (t : System) :
  OpenCmd (buildOpenCmd t)
  = sl (elems (OpenCmd t) ++ openArgs (BaseArgs t) (SystemArgs t)).
Proof.
  unfold buildOpenCmd, openArgs, append.
  destruct (nonempty (AuthPrivateKey (SystemArgs t))),
           (nonempty (AuthUsername (BaseArgs t))),
           (AuthStrictKey (SystemArgs t)),
           (nonempty (SSHKnownHostsFile (SystemArgs t))),
           (nonempty (SSHConfigFile (SystemArgs t)));
    cbn [OpenCmd set_OpenCmd elems negb app];
    rewrite <- ?app_assoc; reflexivity.
Qed.

Lemma freshBuild_openArgs (t : System) :
  freshBuild t = openArgs (BaseArgs t) (SystemArgs t).
Proof.
  unfold freshBuild. rewrite buildOpenCmd_appends. reflexivity.
Qed.

(** C2.  With host 10.0.0.1, port 22, a socket timeout of 5 s, an idle
    timeout of 30 s, no private key, the user admin, strict host-key
    checking disabled and no SSH config file, [buildOpenCmd] turns an
    empty argument vector (nil, or of length 0) into exactly the fifteen
    arguments below, in this order, whatever the other fields hold. *)
Theorem buildOpenCmd_fixed_inputs
    (knownHosts execCmd : string) (height width : Z) (file : option File) :
  let b := {| Host := "10.0.0.1"; Port := 22; AuthUsername := "admin";
              TimeoutSocket := 5 * Second; TimeoutTransport := 30 * Second;
              PtyHeight := height; PtyWidth := width |} in
  let s := {| AuthPrivateKey := ""; AuthStrictKey := false;
              SSHConfigFile := ""; SSHKnownHostsFile := knownHosts |} in
  let expected :=
    sl ["10.0.0.1"; "-p"; "22"; "-o"; "ConnectTimeout=5";
        "-o"; "ServerAliveInterval=30"; "-l"; "admin";
        "-o"; "StrictHostKeyChecking=no";
        "-o"; "UserKnownHostsFile=/dev/null"; "-F"; "/dev/null"] in
  OpenCmd (buildOpenCmd {| BaseArgs := b; SystemArgs := s; fileObj := file;
                           OpenCmd := snil; ExecCmd := execCmd |}) = expected
  /\ OpenCmd (buildOpenCmd {| BaseArgs := b; SystemArgs := s; fileObj := file;
                              OpenCmd := sl []; ExecCmd := execCmd |}) = expected.
Proof.
  intros b s expected. split; vm_compute; reflexivity.
Qed.

(** ** The session: [Open], [OpenNetconf], [Close], [IsAlive] *)

Lemma spawned_app (tr tr' : list Event) :
  spawned (tr ++ tr') = spawned tr ++ spawned tr'.
Proof. unfold spawned. apply flat_map_app. Qed.

Ltac run_method :=
  unfold eval, exec, Open, OpenNetconf, Close, IsAlive, File_Close,
    pty_Start, log, emit, syscall, update, this, bind, ret;
  cbn [self os trace fst snd].

Section Session.

Context {OS : Type} {P : Platform OS}.

(** [Open], step by step: the one spawn it makes, and what it leaves. *)
Lemma Open_run (st : state OS) :
  let t := opening (self st) in
  let command := exec_Command (ExecCmd t) (elems (OpenCmd t)) in
  let (r, os') := pty_start command (sizeOf t) (os st) in
  os (exec Open st) = os'
  /\ spawned (trace (exec Open st)) = spawned (trace st) ++ [command]
  /\ In (EvSpawn command (sizeOf t)) (trace (exec Open st))
  /\ match r with
     | StartFailed err =>
         eval Open st = Some err /\ self (exec Open st) = t
     | Started f =>
         eval Open st = None /\ self (exec Open st) = set_fileObj t (Some f)
     end.
Proof.
  unfold opening, sizeOf. run_method.
  destruct (is_nil (OpenCmd (self st))); cbn [self os trace];
    match goal with
    | |- context [String.eqb (ExecCmd ?t) ""] =>
        destruct (String.eqb (ExecCmd t) "")
    end; cbn [self os trace];
    match goal with
    | |- context [pty_start ?c ?s ?o] => destruct (pty_start c s o) as [[f|err] os']
    end; cbn [self os trace fst snd];
    repeat split;
    rewrite ?spawned_app, ?app_nil_r; try reflexivity;
    rewrite ?in_app_iff; cbn [In]; auto 8.
Qed.

(** [OpenNetconf], step by step. *)
Lemma OpenNetconf_run (st : state OS) :
  let t := openingNetconf (self st) in
  let command := exec_Command "ssh" (elems (OpenCmd t)) in
  let (r, os') := pty_start command None (os st) in
  os (exec OpenNetconf st) = os'
  /\ spawned (trace (exec OpenNetconf st)) = spawned (trace st) ++ [command]
  /\ In (EvSpawn command None) (trace (exec OpenNetconf st))
  /\ match r with
     | StartFailed err =>
         eval OpenNetconf st = Some err /\ self (exec OpenNetconf st) = t
     | Started f =>
         eval OpenNetconf st = None
         /\ self (exec OpenNetconf st) = set_fileObj t (Some f)
     end.
Proof.
  unfold openingNetconf. run_method.
  match goal with
  | |- context [pty_start ?c ?s ?o] => destruct (pty_start c s o) as [[f|err] os']
  end; cbn [self os trace fst snd];
  repeat split;
  rewrite ?spawned_app, ?app_nil_r; try reflexivity;
  rewrite ?in_app_iff; cbn [In]; auto 8.
Qed.

(** [opening] and [openingNetconf] leave the session handle alone. *)
Lemma opening_fileObj (t : System) : fileObj (opening t) = fileObj t.
Proof.
  unfold opening.
  destruct (is_nil (OpenCmd t));
    match goal with
    | |- context [String.eqb (ExecCmd ?t) ""] =>
        destruct (String.eqb (ExecCmd t) "")
    end; cbn [fileObj set_ExecCmd]; try apply buildOpenCmd_frame; reflexivity.
Qed.

Lemma openingNetconf_fileObj (t : System) :
  fileObj (openingNetconf t) = fileObj t.
Proof.
  unfold openingNetconf. cbn [fileObj set_OpenCmd]. apply buildOpenCmd_frame.
Qed.

(** [Close] empties the session handle and returns what closing the file
    returned. *)
Lemma Close_run (st : state OS) :
  fileObj (self (exec Close st)) = None
  /\ eval Close st = eval (File_Close (fileObj (self st))) st.
Proof.
  run_method.
  destruct (fileObj (self st)) as [f|]; cbn [self os trace fst snd].
  - destruct (file_close f (os st)) as [err os']. split; reflexivity.
  - split; reflexivity.
Qed.

(** After [Open], successful or not, the argument vector and the program
    are those of the receiver at the point of the spawn. *)
Lemma Open_fields (st : state OS) :
  OpenCmd (self (exec Open st)) = OpenCmd (opening (self st))
  /\ ExecCmd (self (exec Open st)) = ExecCmd (opening (self st)).
Proof.
  pose proof (Open_run st) as H. cbv zeta in H.
  destruct (pty_start _ _ (os st)) as [[f|err] os'];
    destruct H as (_ & _ & _ & _ & ->); split; reflexivity.
Qed.

Lemma OpenNetconf_fields (st : state OS) :
  OpenCmd (self (exec OpenNetconf st)) = OpenCmd (openingNetconf (self st)).
Proof.
  pose proof (OpenNetconf_run st) as H. cbv zeta in H.
  destruct (pty_start _ _ (os st)) as [[f|err] os'];
    destruct H as (_ & _ & _ & _ & ->); reflexivity.
Qed.

Lemma opening_ExecCmd (t : System) :
  ExecCmd (opening t)
  = if String.eqb (ExecCmd t) "" then "ssh" else ExecCmd t.
Proof.
  unfold opening.
  destruct (is_nil (OpenCmd t)).
  - destruct (buildOpenCmd_frame t) as (_ & _ & _ & E). rewrite E.
    destruct (String.eqb (ExecCmd t) ""); [reflexivity|exact E].
  - destruct (String.eqb (ExecCmd t) ""); reflexivity.
Qed.

Lemma opening_OpenCmd (t : System) :
  OpenCmd (opening t)
  = if is_nil (OpenCmd t) then OpenCmd (buildOpenCmd t) else OpenCmd t.
Proof.
  unfold opening.
  destruct (is_nil (OpenCmd t));
    match goal with
    | |- context [String.eqb (ExecCmd ?t) ""] =>
        destruct (String.eqb (ExecCmd t) "")
    end; reflexivity.
Qed.

Lemma openingNetconf_OpenCmd (t : System) :
  OpenCmd (openingNetconf t)
  = sl (elems (OpenCmd t) ++ freshBuild t ++ ["-tt"; "-s"; "netconf"]).
Proof.
  unfold openingNetconf. cbn [OpenCmd set_OpenCmd]. unfold append.
  rewrite buildOpenCmd_appends, freshBuild_openArgs. cbn [elems].
  now rewrite <- app_assoc.
Qed.

(** The commands spawned by [Open] and by [OpenNetconf]. *)
Lemma Open_spawned (st : state OS) :
  spawned (trace (exec Open st))
  = spawned (trace st)
    ++ [exec_Command (ExecCmd (opening (self st)))
                     (elems (OpenCmd (opening (self st))))].
Proof.
  pose proof (Open_run st) as H. cbv zeta in H.
  destruct (pty_start _ _ (os st)) as [r os']. apply H.
Qed.

Lemma OpenNetconf_spawned (st : state OS) :
  spawned (trace (exec OpenNetconf st))
  = spawned (trace st)
    ++ [exec_Command "ssh" (elems (OpenCmd (openingNetconf (self st))))].
Proof.
  pose proof (OpenNetconf_run st) as H. cbv zeta in H.
  destruct (pty_start _ _ (os st)) as [r os']. apply H.
Qed.

(** C3.  [IsAlive] returns false on a [System] on which nothing has been
    called yet; it returns true right after an [Open] or an [OpenNetconf]
    that returned a nil error; it returns false right after [Close],
    whatever [Close] returned.  [IsAlive] changes nothing (receiver,
    platform, events), and its value depends only on whether [fileObj] is
    nil. *)
Theorem IsAlive_lifecycle :
  (forall b s openCmd execCmd (o : OS),
      eval IsAlive (initial (NewSystem b s openCmd execCmd) o) = false)
  /\ (forall st : state OS,
         eval Open st = None -> eval IsAlive (exec Open st) = true)
  /\ (forall st : state OS,
         eval OpenNetconf st = None ->
         eval IsAlive (exec OpenNetconf st) = true)
  /\ (forall (st : state OS) (err : option GoError),
         eval Close st = err -> eval IsAlive (exec Close st) = false)
  /\ (forall st : state OS, exec IsAlive st = st)
  /\ (forall st st' : state OS,
         (fileObj (self st) = None <-> fileObj (self st') = None) ->
         eval IsAlive st = eval IsAlive st').
Proof.
  split; [|split; [|split; [|split; [|split]]]].
  - reflexivity.
  - intros st Hok. pose proof (Open_run st) as H. cbv zeta in H.
    destruct (pty_start _ _ (os st)) as [[f|err] os'];
      destruct H as (_ & _ & _ & Hr & Hs).
    + unfold eval, IsAlive, this, bind, ret. cbn [fst]. now rewrite Hs.
    + congruence.
  - intros st Hok. pose proof (OpenNetconf_run st) as H. cbv zeta in H.
    destruct (pty_start _ _ (os st)) as [[f|err] os'];
      destruct H as (_ & _ & _ & Hr & Hs).
    + unfold eval, IsAlive, this, bind, ret. cbn [fst]. now rewrite Hs.
    + congruence.
  - intros st err _. destruct (Close_run st) as [H _].
    unfold eval, IsAlive, this, bind, ret. cbn [fst]. now rewrite H.
  - intros [t o tr]. reflexivity.
  - intros st st' H. unfold eval, IsAlive, this, bind, ret. cbn [fst].
    destruct (fileObj (self st)), (fileObj (self st')); try reflexivity.
    + destruct H as [_ H]. discriminate (H eq_refl).
    + destruct H as [H _]. discriminate (H eq_refl).
Qed.

End Session.

(** On the healthy platform [Open] returns nil and the transport is alive;
    on the broken one [Close] returns an error and the transport is not
    alive. *)
Lemma IsAlive_lifecycle_witness :
  (eval Open (initial exampleSystem healthy) = None
   /\ eval IsAlive (exec Open (initial exampleSystem healthy)) = true)
  /\ (eval OpenNetconf (initial exampleSystem healthy) = None
      /\ eval IsAlive (exec OpenNetconf (initial exampleSystem healthy)) = true)
  /\ (eval Close (exec Open (initial exampleSystem healthy)) = None
      /\ eval IsAlive (exec Close (exec Open (initial exampleSystem healthy)))
         = false)
  /\ (eval Close (initial (set_fileObj exampleSystem (Some (mkFile 3))) broken)
      = Some (os_Error "file already closed")
      /\ eval IsAlive
           (exec Close
              (initial (set_fileObj exampleSystem (Some (mkFile 3))) broken))
         = false).
Proof.
  destruct (@IsAlive_lifecycle Script scripted)
    as (_ & HOpen & HNetconf & HClose & _ & _).
  split; [|split; [|split]]; (split; [reflexivity|]).
  - apply HOpen. reflexivity.
  - apply HNetconf. reflexivity.
  - apply (HClose _ None). reflexivity.
  - apply (HClose _ (Some (os_Error "file already closed"))). reflexivity.
Defined.

Section Spawning.

Context {OS : Type} {P : Platform OS}.

(** X14.  What [OpenNetconf] makes of the argument vector.  It always
    runs the command builder, with no test of the vector, and then appends "-tt",
    "-s", "netconf".  The builder appends to the vector it finds: the
    resulting vector is the previous contents, then a fresh build, then
    the three trailing arguments, and it is the vector that is spawned.
    It is a fresh build followed by the three arguments when the previous
    vector was nil or of length 0. *)
Theorem OpenNetconf_vector (st : state OS) :
  OpenCmd (self (exec OpenNetconf st))
  = sl (elems (OpenCmd (self st))
        ++ freshBuild (self st) ++ ["-tt"; "-s"; "netconf"])
  /\ map cmd_args (spawned (trace (exec OpenNetconf st)))
     = map cmd_args (spawned (trace st))
       ++ [elems (OpenCmd (self (exec OpenNetconf st)))]
  /\ (elems (OpenCmd (self st)) = [] ->
      OpenCmd (self (exec OpenNetconf st))
      = sl (freshBuild (self st) ++ ["-tt"; "-s"; "netconf"])).
Proof.
  rewrite OpenNetconf_fields, OpenNetconf_spawned, openingNetconf_OpenCmd.
  split; [reflexivity|]. split.
  - rewrite map_app. reflexivity.
  - intros ->. reflexivity.
Qed.

(** C6 (as amended).  [Open] spawns the program [ExecCmd] when it is set
    and "ssh" when it is empty; [OpenNetconf] spawns "ssh" whatever
    [ExecCmd] holds. *)
Theorem spawned_program (st : state OS) :
  map cmd_name (spawned (trace (exec Open st)))
  = map cmd_name (spawned (trace st))
    ++ [if String.eqb (ExecCmd (self st)) "" then "ssh"
        else ExecCmd (self st)]
  /\ map cmd_name (spawned (trace (exec OpenNetconf st)))
     = map cmd_name (spawned (trace st)) ++ ["ssh"].
Proof.
  rewrite Open_spawned, OpenNetconf_spawned, !map_app.
  cbn [map cmd_name exec_Command]. rewrite opening_ExecCmd.
  split; reflexivity.
Qed.

(** C8.  When the argument vector is not nil, [Open] leaves it as it is
    and spawns with exactly these arguments; when it is nil, [Open] builds
    it with [buildOpenCmd] and spawns with the vector built. *)
Theorem Open_reuses_vector (st : state OS) :
  (forall xs,
      OpenCmd (self st) = sl xs ->
      OpenCmd (self (exec Open st)) = sl xs
      /\ map cmd_args (spawned (trace (exec Open st)))
         = map cmd_args (spawned (trace st)) ++ [xs])
  /\ (OpenCmd (self st) = snil ->
      OpenCmd (self (exec Open st)) = OpenCmd (buildOpenCmd (self st))
      /\ map cmd_args (spawned (trace (exec Open st)))
         = map cmd_args (spawned (trace st))
           ++ [elems (OpenCmd (buildOpenCmd (self st)))]).
Proof.
  destruct (Open_fields st) as [HO _].
  rewrite HO, Open_spawned, map_app, opening_OpenCmd.
  cbn [map cmd_args exec_Command].
  split.
  - intros xs ->. split; reflexivity.
  - intros ->. split; reflexivity.
Qed.

(** C10.  When [Open] or [OpenNetconf] returns an error, that error is the
    one the start of the process on the pseudo-terminal returned for the
    command spawned, [fileObj] is what it was before the call, and
    [IsAlive] reports what it reported before the call.  Both return the
    error of the start whenever the start fails. *)
Theorem spawn_failure_keeps_handle (st : state OS) (err : GoError) :
  ((forall command size,
       fst (pty_start command size (os st)) = StartFailed err) ->
   eval Open st = Some err /\ eval OpenNetconf st = Some err)
  /\ (eval Open st = Some err ->
      fileObj (self (exec Open st)) = fileObj (self st)
      /\ eval IsAlive (exec Open st) = eval IsAlive st
      /\ exists command size,
           In (EvSpawn command size) (trace (exec Open st))
           /\ fst (pty_start command size (os st)) = StartFailed err)
  /\ (eval OpenNetconf st = Some err ->
      fileObj (self (exec OpenNetconf st)) = fileObj (self st)
      /\ eval IsAlive (exec OpenNetconf st) = eval IsAlive st
      /\ exists command size,
           In (EvSpawn command size) (trace (exec OpenNetconf st))
           /\ fst (pty_start command size (os st)) = StartFailed err).
Proof.
  pose proof (Open_run st) as HO. pose proof (OpenNetconf_run st) as HN.
  cbv zeta in HO, HN.
  split; [|split].
  - intros Hfail. split.
    + clear HN.
      specialize (Hfail (exec_Command (ExecCmd (opening (self st)))
                                      (elems (OpenCmd (opening (self st)))))
                        (sizeOf (opening (self st)))).
      destruct (pty_start _ _ (os st)) as [r os'].
      cbn [fst] in Hfail. subst r. apply HO.
    + clear HO.
      specialize (Hfail (exec_Command "ssh"
                           (elems (OpenCmd (openingNetconf (self st)))))
                        None).
      destruct (pty_start _ _ (os st)) as [r os'].
      cbn [fst] in Hfail. subst r. apply HN.
  - intros Herr. clear HN.
    destruct (pty_start _ _ (os st)) as [[f|e] os'] eqn:E;
      destruct HO as (_ & _ & Hin & Hr & Hs); [congruence|].
    assert (e = err) by congruence. subst e.
    assert (Hf : fileObj (self (exec Open st)) = fileObj (self st))
      by (rewrite Hs; apply opening_fileObj).
    split; [exact Hf|]. split.
    + unfold eval, IsAlive, this, bind, ret. cbn [fst]. now rewrite Hf.
    + eexists _, _. split; [exact Hin|]. now rewrite E.
  - intros Herr. clear HO.
    destruct (pty_start _ _ (os st)) as [[f|e] os'] eqn:E;
      destruct HN as (_ & _ & Hin & Hr & Hs); [congruence|].
    assert (e = err) by congruence. subst e.
    assert (Hf : fileObj (self (exec OpenNetconf st)) = fileObj (self st))
      by (rewrite Hs; apply openingNetconf_fileObj).
    split; [exact Hf|]. split.
    + unfold eval, IsAlive, this, bind, ret. cbn [fst]. now rewrite Hf.
    + eexists _, _. split; [exact Hin|]. now rewrite E.
Qed.

End Spawning.

(** [OpenNetconf] on a [System] that has not been opened before. *)
Lemma OpenNetconf_vector_witness :
  elems (OpenCmd (self (initial exampleSystem healthy))) = []
  /\ OpenCmd (self (exec OpenNetconf (initial exampleSystem healthy)))
     = sl (freshBuild exampleSystem ++ ["-tt"; "-s"; "netconf"]).
Proof.
  split; [reflexivity|].
  apply (proj2 (proj2 (OpenNetconf_vector (initial exampleSystem healthy)))).
  reflexivity.
Defined.

(** C5, the code on a [System] that [Open] has opened before: the claim
    is that [OpenNetconf] discards the vector it finds and leaves a fresh
    build followed by "-tt", "-s", "netconf"; the code keeps the vector
    that [Open] built and appends a second build to it, so that the host
    and every option come twice before the three trailing arguments. *)
Lemma OpenNetconf_after_Open_keeps_vector :
  OpenCmd (self (exec OpenNetconf (exec Open (initial exampleSystem healthy))))
  = sl ["10.0.0.1"; "-p"; "22"; "-o"; "ConnectTimeout=5";
        "-o"; "ServerAliveInterval=30"; "-l"; "admin";
        "-o"; "StrictHostKeyChecking=no";
        "-o"; "UserKnownHostsFile=/dev/null"; "-F"; "/dev/null";
        "10.0.0.1"; "-p"; "22"; "-o"; "ConnectTimeout=5";
        "-o"; "ServerAliveInterval=30"; "-l"; "admin";
        "-o"; "StrictHostKeyChecking=no";
        "-o"; "UserKnownHostsFile=/dev/null"; "-F"; "/dev/null";
        "-tt"; "-s"; "netconf"]
  /\ sl (freshBuild (self (exec Open (initial exampleSystem healthy)))
         ++ ["-tt"; "-s"; "netconf"])
     = sl ["10.0.0.1"; "-p"; "22"; "-o"; "ConnectTimeout=5";
           "-o"; "ServerAliveInterval=30"; "-l"; "admin";
           "-o"; "StrictHostKeyChecking=no";
           "-o"; "UserKnownHostsFile=/dev/null"; "-F"; "/dev/null";
           "-tt"; "-s"; "netconf"]
  /\ OpenCmd (self (exec OpenNetconf
                      (exec Open (initial exampleSystem healthy))))
     <> sl (freshBuild (self (exec Open (initial exampleSystem healthy)))
            ++ ["-tt"; "-s"; "netconf"]).
Proof.
  split; [vm_compute; reflexivity|].
  split; [vm_compute; reflexivity|].
  vm_compute. discriminate.
Qed.

(** C6 as stated fails: with [ExecCmd] set to "docker", [Open] spawns
    "docker" and [OpenNetconf] spawns "ssh". *)
Lemma OpenNetconf_ignores_ExecCmd :
  ExecCmd dockerSystem = "docker"
  /\ map cmd_name (spawned (trace (exec Open (initial dockerSystem healthy))))
     = ["docker"]
  /\ map cmd_name
       (spawned (trace (exec OpenNetconf (initial dockerSystem healthy))))
     = ["ssh"]
  /\ "ssh" <> "docker".
Proof.
  repeat split; try (vm_compute; reflexivity). discriminate.
Qed.

(** [Open] on a [System] whose argument vector the caller has set. *)
Lemma Open_reuses_vector_witness :
  OpenCmd (self (initial dockerSystem healthy))
  = sl ["exec"; "-it"; "router1"; "sh"]
  /\ OpenCmd (self (exec Open (initial dockerSystem healthy)))
     = sl ["exec"; "-it"; "router1"; "sh"]
  /\ map cmd_args (spawned (trace (exec Open (initial dockerSystem healthy))))
     = [["exec"; "-it"; "router1"; "sh"]].
Proof.
  split; [reflexivity|].
  apply (proj1 (Open_reuses_vector (initial dockerSystem healthy))
           ["exec"; "-it"; "router1"; "sh"]).
  reflexivity.
Defined.

(** [Open] and [OpenNetconf] on the broken platform, on a [System] whose
    session handle is set. *)
Lemma spawn_failure_keeps_handle_witness :
  eval Open (initial (set_fileObj exampleSystem (Some (mkFile 7))) broken)
  = Some (os_Error "fork/exec: no such file")
  /\ fileObj (self (exec Open
                      (initial (set_fileObj exampleSystem (Some (mkFile 7)))
                               broken)))
     = Some (mkFile 7)
  /\ eval OpenNetconf (initial exampleSystem broken)
     = Some (os_Error "fork/exec: no such file")
  /\ fileObj (self (exec OpenNetconf (initial exampleSystem broken))) = None.
Proof.
  destruct (spawn_failure_keeps_handle
              (initial (set_fileObj exampleSystem (Some (mkFile 7))) broken)
              (os_Error "fork/exec: no such file")) as (Hfail & HOpen & _).
  destruct (spawn_failure_keeps_handle
              (initial exampleSystem broken)
              (os_Error "fork/exec: no such file")) as (Hfail' & _ & HNetconf).
  split; [|split; [|split]].
  - apply Hfail. reflexivity.
  - apply HOpen. reflexivity.
  - apply Hfail'. reflexivity.
  - apply HNetconf. reflexivity.
Defined.

(** ** Reading: [read], [Read], [ReadN] *)

Lemma skipn_repeat_zero (k n : nat) :
  skipn k (repeat x00 n) = repeat x00 (n - k).
Proof.
  revert n. induction k as [|k IH]; intros [|n]; cbn; auto.
Qed.

Lemma make_bytes_length (n : Z) (b : list byte) :
  make_bytes n = Some b -> 0 <= n /\ b = repeat x00 (Z.to_nat n).
Proof.
  unfold make_bytes. destruct (Z.ltb_spec n 0); [discriminate|].
  intros [= <-]. split; [lia|reflexivity].
Qed.

(** What [fill] leaves in a buffer: as many bytes as the buffer had. *)
Lemma fill_length (b data : list byte) :
  List.length (fst (fill b data)) = List.length b.
Proof.
  unfold fill. cbn [fst].
  rewrite length_app, length_firstn, length_skipn. lia.
Qed.

Section Reading.

Context {OS : Type} {P : Platform OS}.

(** A read through the file never changes the length of the buffer. *)
Lemma File_Read_length (st : state OS) (b : list byte) after b' k err :
  eval (File_Read (fileObj (self st)) b) st = read_returns after b' k err ->
  List.length b' = List.length b.
Proof.
  unfold eval, File_Read, emit, syscall, bind, ret.
  destruct (fileObj (self st)) as [f|]; cbn [self os trace fst snd].
  - destruct (file_read f _ (os st)) as [[a data e|] os']; cbn [fst];
      [|discriminate].
    pose proof (fill_length b data) as HL.
    destruct (fill b data) as [b1 k1]. cbn [fst] in HL.
    intros [= _ <- _ _]. exact HL.
  - intros [= _ <- _ _]. reflexivity.
Qed.

(** [read], step by step. *)
Lemma read_run (st : state OS) (n : Z) :
  eval (read n) st
  = match make_bytes n with
    | None => None
    | Some b =>
        Some match eval (File_Read (fileObj (self st)) b) st with
             | read_blocks => Blocked
             | read_returns after b' _ (Some _) =>
                 Returns after {| result := snil;
                                  error := Some ErrTransportFailure |}
             | read_returns after b' _ None =>
                 Returns after {| result := sl b'; error := None |}
             end
    end.
Proof.
  unfold eval, read. destruct (make_bytes n) as [b|]; [|reflexivity].
  unfold bind, this, ret.
  destruct (File_Read (fileObj (self st)) b st) as [r st']. reflexivity.
Qed.

(** [Read] and [ReadN] return what the guard makes of the worker. *)
Lemma readWithTimeout_run (st : state OS) (n : Z) (pick : choice) :
  eval (readWithTimeout n pick) st
  = match eval (read n) st with
    | None => Panics
    | Some f =>
        match transportTimeout (TimeoutTransport (BaseArgs (self st))) f pick
        with
        | None => BlocksForever
        | Some out => Return out
        end
    end.
Proof.
  unfold eval, readWithTimeout, bind, this, log, emit, ret.
  destruct (read n st) as [[f|] st']; cbn [fst]; [|reflexivity].
  destruct (transportTimeout _ f pick) as [[b [e|]]|]; reflexivity.
Qed.

(** C4 (as amended).  Whatever error the read of the underlying stream
    returns, the end of the stream included, the read worker returns a nil
    payload with [ErrTransportFailure], never that error.  [ReadN] and
    [Read] return this pair when the worker returns before the timer of
    the guard expires; when the timer expires first they return the empty
    payload with [ErrTransportTimeout] instead.  In every case what they
    return is one of these two pairs, not the error of the stream. *)
Theorem read_error_normalised (st : state OS) (n : Z) (pick : choice)
    (b b' : list byte) (after : N) (k : Z) (e : GoError) :
  make_bytes n = Some b ->
  eval (File_Read (fileObj (self st)) b) st = read_returns after b' k (Some e) ->
  eval (read n) st
  = Some (Returns after {| result := snil; error := Some ErrTransportFailure |})
  /\ (eval (ReadN n pick) st = Return (snil, Some ErrTransportFailure)
      \/ eval (ReadN n pick) st = Return timedOut)
  /\ (Z.of_N after < Z.max 0 (TimeoutTransport (BaseArgs (self st))) ->
      eval (ReadN n pick) st = Return (snil, Some ErrTransportFailure))
  /\ (n = ReadSize -> eval (Read pick) st = eval (ReadN n pick) st)
  /\ (Z.max 0 (TimeoutTransport (BaseArgs (self st))) < Z.of_N after ->
      eval (ReadN n pick) st = Return timedOut).
Proof.
  intros Hb Hr.
  assert (Hread : eval (read n) st
                  = Some (Returns after {| result := snil;
                                           error := Some ErrTransportFailure |}))
    by (rewrite read_run, Hb, Hr; reflexivity).
  split; [exact Hread|].
  unfold ReadN, Read. rewrite readWithTimeout_run, Hread.
  split; [|split; [|split]].
  - destruct (transportTimeout_cases
                (TimeoutTransport (BaseArgs (self st)))
                (Returns after {| result := snil;
                                  error := Some ErrTransportFailure |}) pick)
      as [(a & r & [= <- <-] & ->)| ->]; [left|right]; reflexivity.
  - intros Hlt. now rewrite transportTimeout_worker_first.
  - intros ->. rewrite readWithTimeout_run, Hread. reflexivity.
  - intros Hlate. now rewrite transportTimeout_timer_first.
Qed.

(** [Read] and [ReadN] return, unless the size is negative and [make]
    panics: the guard never leaves them blocked. *)
Lemma readWithTimeout_returns (st : state OS) (n : Z) (pick : choice) :
  (n < 0 /\ eval (readWithTimeout n pick) st = Panics)
  \/ (0 <= n /\ exists out, eval (readWithTimeout n pick) st = Return out).
Proof.
  rewrite readWithTimeout_run, read_run. unfold make_bytes.
  destruct (Z.ltb_spec n 0) as [Hn|Hn]; [left; now split|right].
  split; [exact Hn|].
  match goal with
  | |- context [transportTimeout ?d ?f pick] =>
      destruct (transportTimeout_returns d f pick) as [out ->]
  end.
  now exists out.
Qed.

(** A worker result without error carries the whole buffer. *)
Lemma read_worker_length (st : state OS) (n : Z) after r :
  eval (read n) st = Some (Returns after r) -> error r = None ->
  len (result r) = n.
Proof.
  rewrite read_run.
  destruct (make_bytes n) as [b|] eqn:Hb; [|discriminate].
  apply make_bytes_length in Hb. destruct Hb as [Hn ->].
  destruct (eval (File_Read _ _) st) as [a b' k [e|]|] eqn:Hr;
    intros [= <- <-]; cbn [error result]; [discriminate|intros _].
  apply File_Read_length in Hr.
  unfold len. cbn [elems]. rewrite Hr, repeat_length. lia.
Qed.

(** A nil error from the guarded read means the worker's result came
    through. *)
Lemma readWithTimeout_success (st : state OS) (n : Z) (pick : choice) p :
  eval (readWithTimeout n pick) st = Return (p, None) -> len p = n.
Proof.
  rewrite readWithTimeout_run.
  destruct (eval (read n) st) as [f|] eqn:Hf; [|discriminate].
  destruct (transportTimeout_cases
              (TimeoutTransport (BaseArgs (self st))) f pick)
    as [(a & r & -> & ->)| ->].
  - unfold unwrapped. intros [= <- He]. now apply (read_worker_length st n a r).
  - discriminate.
Qed.

(** C9.  A read worker that returns no error returns a payload of exactly
    [n] bytes, and so do [ReadN(n)] and, with 65535 for [n], [Read] when
    they return a nil error.  When the stream had [data] for the read, the
    payload is the first [k] bytes of [data] followed by [n - k] zero
    bytes, [k] being the smaller of [n] and the length of [data]; [k]
    itself is not returned.  [ReadN(n)] returns that payload with a nil
    error when the read returns before the timer of the guard expires. *)
Theorem read_success_length (st : state OS) (n : Z) (pick : choice) :
  (forall after r,
      eval (read n) st = Some (Returns after r) -> error r = None ->
      len (result r) = n)
  /\ (forall p, eval (ReadN n pick) st = Return (p, None) -> len p = n)
  /\ (forall p, eval (Read pick) st = Return (p, None) -> len p = 65535)
  /\ (forall f after data os',
         0 <= n -> fileObj (self st) = Some f ->
         file_read f n (os st) = (stream_returns after data None, os') ->
         let k := Nat.min (List.length data) (Z.to_nat n) in
         let payload := firstn k data ++ repeat x00 (Z.to_nat n - k) in
         eval (read n) st
         = Some (Returns after {| result := sl payload; error := None |})
         /\ len (sl payload) = n
         /\ (Z.of_N after < Z.max 0 (TimeoutTransport (BaseArgs (self st))) ->
             eval (ReadN n pick) st = Return (sl payload, None))).
Proof.
  split; [apply read_worker_length|].
  split; [intros p; apply readWithTimeout_success|].
  split; [intros p; apply readWithTimeout_success|].
  intros f after data os' Hn Hf Hread k payload.
  assert (Hworker : eval (read n) st
                    = Some (Returns after {| result := sl payload;
                                             error := None |})).
  { rewrite read_run. unfold make_bytes.
    destruct (Z.ltb_spec n 0); [lia|].
    unfold eval, File_Read, emit, syscall, bind, ret. rewrite Hf.
    cbn [self os trace fst snd].
    rewrite repeat_length, Z2Nat.id, Hread by lia.
    unfold fill. cbn [fst]. rewrite repeat_length, skipn_repeat_zero.
    reflexivity. }
  split; [exact Hworker|]. split.
  - now apply (read_worker_length st n after _ Hworker).
  - intros Hlt. unfold ReadN. rewrite readWithTimeout_run, Hworker.
    now rewrite transportTimeout_worker_first.
Qed.

End Reading.

(** [ReadN(4)] on a session whose stream has ended: the stream returns
    [io.EOF] at once, and the caller gets [ErrTransportFailure]. *)
Lemma read_error_normalised_witness :
  make_bytes 4 = Some [x00; x00; x00; x00]
  /\ eval (File_Read (Some (mkFile 3)) [x00; x00; x00; x00])
          (initial (set_fileObj exampleSystem (Some (mkFile 3))) broken)
     = read_returns 0 [x00; x00; x00; x00] 0 (Some io_EOF)
  /\ eval (read 4) (initial (set_fileObj exampleSystem (Some (mkFile 3))) broken)
     = Some (Returns 0 {| result := snil; error := Some ErrTransportFailure |})
  /\ eval (ReadN 4 choose_timer)
          (initial (set_fileObj exampleSystem (Some (mkFile 3))) broken)
     = Return (snil, Some ErrTransportFailure).
Proof.
  split; [reflexivity|]. split; [reflexivity|].
  destruct (read_error_normalised
              (initial (set_fileObj exampleSystem (Some (mkFile 3))) broken)
              4 choose_timer [x00; x00; x00; x00] [x00; x00; x00; x00]
              0%N 0 io_EOF) as (Hworker & _ & Hguard & _);
    [reflexivity | reflexivity |].
  split; [exact Hworker|].
  apply Hguard. reflexivity.
Defined.

(** C4 as stated fails: on an open session with a timeout of 30 s whose
    stream reports its end only after 40 s, the read of the stream
    returns [io.EOF], and [ReadN] and [Read] return the empty payload with
    [ErrTransportTimeout], under either selection, not a nil payload with
    [ErrTransportFailure]. *)
Lemma ReadN_late_EOF_times_out :
  TimeoutTransport (BaseArgs (self (exec Open (initial exampleSystem lateEOF))))
  = 30000000000
  /\ eval (File_Read (fileObj (self (exec Open (initial exampleSystem lateEOF))))
                     [x00; x00; x00; x00])
          (exec Open (initial exampleSystem lateEOF))
     = read_returns 40000000000 [x00; x00; x00; x00] 0 (Some io_EOF)
  /\ eval (ReadN 4 choose_c) (exec Open (initial exampleSystem lateEOF))
     = Return (sl [], Some ErrTransportTimeout)
  /\ eval (ReadN 4 choose_timer) (exec Open (initial exampleSystem lateEOF))
     = Return (sl [], Some ErrTransportTimeout)
  /\ eval (Read choose_c) (exec Open (initial exampleSystem lateEOF))
     = Return (sl [], Some ErrTransportTimeout)
  /\ (sl [], Some ErrTransportTimeout)
     <> (@snil byte, Some ErrTransportFailure).
Proof.
  split; [reflexivity|]. split; [reflexivity|].
  split; [reflexivity|]. split; [reflexivity|].
  split; [vm_compute; reflexivity|]. discriminate.
Qed.

(** [ReadN(4)] on an open session whose stream has two bytes: the caller
    gets four bytes, the two of the stream and two zero bytes. *)
Lemma read_success_length_witness :
  eval (ReadN 4 choose_c) (exec Open (initial exampleSystem healthy))
  = Return (sl [x68; x69; x00; x00], None)
  /\ len (sl [x68; x69; x00; x00]) = 4
  /\ eval (read 4) (exec Open (initial exampleSystem healthy))
     = Some (Returns 5000000 {| result := sl [x68; x69; x00; x00];
                                error := None |}).
Proof.
  destruct (read_success_length (exec Open (initial exampleSystem healthy))
              4 choose_c) as (_ & Hguard & _ & Hdata).
  destruct (Hdata (mkFile 3) 5000000%N [x68; x69] healthy)
    as (Hworker & _ & Hin); [lia | reflexivity | reflexivity |].
  split; [|split].
  - apply Hin. reflexivity.
  - apply Hguard. reflexivity.
  - exact Hworker.
Defined.

(* ================================================================== *)
(** * Further properties of the code *)

(** ** The timeout guard *)

(** X1.  A nil error from the guard means that the worker returned, with a
    nil error and the payload that the guard hands over, no later than the
    instant the timer expired: the guard never reports success for a
    worker that was late or that failed. *)
Theorem transportTimeout_nil_error timeout f pick p :
  transportTimeout timeout f pick = Some (p, None) ->
  exists after r,
    f = Returns after r /\ result r = p /\ error r = None
    /\ Z.of_N after <= Z.max 0 timeout.
Proof.
  destruct f as [after r|].
  - destruct (Z.lt_total (Z.of_N after) (Z.max 0 timeout)) as [H|[H|H]].
    + rewrite transportTimeout_worker_first by exact H.
      unfold unwrapped. intros [= Hp He].
      exists after, r. repeat split; auto. lia.
    + rewrite (transportTimeout_tie _ _ r pick H).
      destruct pick; [|discriminate].
      unfold unwrapped. intros [= Hp He].
      exists after, r. repeat split; auto. lia.
    + rewrite transportTimeout_timer_first by exact H. discriminate.
  - rewrite transportTimeout_blocked. discriminate.
Qed.

(** The guard at 50 ms hands over the result of a worker that took 10 ms. *)
Lemma transportTimeout_nil_error_witness :
  transportTimeout fiftyMillis (Returns 10000000 helloResult) choose_timer
  = Some (sl [x68; x69], None)
  /\ exists after r,
       Returns 10000000 helloResult = Returns after r
       /\ result r = sl [x68; x69] /\ error r = None
       /\ Z.of_N after <= Z.max 0 fiftyMillis.
Proof.
  split; [reflexivity|].
  apply (transportTimeout_nil_error fiftyMillis (Returns 10000000 helloResult)
           choose_timer (sl [x68; x69])).
  reflexivity.
Defined.

(** X2.  Under the same selection, a longer duration never loses a result:
    if the guard returns the worker's pair with some duration, it returns
    it with every longer one. *)
Theorem transportTimeout_longer timeout timeout' after r pick :
  timeout <= timeout' ->
  transportTimeout timeout (Returns after r) pick = Some (unwrapped r) ->
  transportTimeout timeout' (Returns after r) pick = Some (unwrapped r).
Proof.
  intros Hle H.
  destruct (Z.lt_total (Z.of_N after) (Z.max 0 timeout')) as [H'|[H'|H']].
  - now apply transportTimeout_worker_first.
  - rewrite (transportTimeout_tie _ _ r pick H').
    destruct pick; [reflexivity|].
    destruct (Z.lt_total (Z.of_N after) (Z.max 0 timeout)) as [H0|[H0|H0]].
    + lia.
    + now rewrite (transportTimeout_tie _ _ r choose_timer H0) in H.
    + now rewrite transportTimeout_timer_first in H by exact H0.
  - rewrite transportTimeout_timer_first by exact H'.
    rewrite transportTimeout_timer_first in H by lia. exact H.
Qed.

(** From 50 ms to 30 s around a worker that takes 10 ms. *)
Lemma transportTimeout_longer_witness :
  fiftyMillis <= thirtySeconds
  /\ transportTimeout fiftyMillis (Returns 10000000 helloResult) choose_timer
     = Some (unwrapped helloResult)
  /\ transportTimeout thirtySeconds (Returns 10000000 helloResult) choose_timer
     = Some (unwrapped helloResult).
Proof.
  split; [discriminate|]. split; [reflexivity|].
  apply (transportTimeout_longer fiftyMillis thirtySeconds
           10000000%N helloResult choose_timer);
    [discriminate | reflexivity].
Defined.

(** ** The command builder *)

Lemma nonempty_spec (s : string) :
  (nonempty s = true <-> s <> "") /\ (nonempty s = false <-> s = "").
Proof.
  unfold nonempty. destruct (String.eqb_spec s ""); cbn; split; split;
    congruence.
Qed.

Lemma openArgs_length (b : BaseTransportArgs) (s : SystemTransportArgs) :
  (11 <= List.length (openArgs b s) <= 17)%nat.
Proof.
  unfold openArgs.
  destruct (nonempty (AuthPrivateKey s)), (nonempty (AuthUsername b)),
           (AuthStrictKey s), (nonempty (SSHKnownHostsFile s)),
           (nonempty (SSHConfigFile s)); cbn; lia.
Qed.

(** X3.  [buildOpenCmd] only ever extends the argument vector: what was
    there stays in front, between 11 and 17 arguments are appended, and
    they depend on the transport arguments alone, not on the vector, the
    session handle or the program.  The result is never nil, and no other
    field of the receiver changes. *)
Theorem buildOpenCmd_extends (t : System) :
  is_nil (OpenCmd (buildOpenCmd t)) = false
  /\ OpenCmd (buildOpenCmd t) = sl (elems (OpenCmd t) ++ freshBuild t)
  /\ (11 <= List.length (freshBuild t) <= 17)%nat
  /\ (forall t',
         BaseArgs t' = BaseArgs t -> SystemArgs t' = SystemArgs t ->
         freshBuild t' = freshBuild t)
  /\ BaseArgs (buildOpenCmd t) = BaseArgs t
  /\ SystemArgs (buildOpenCmd t) = SystemArgs t
  /\ fileObj (buildOpenCmd t) = fileObj t
  /\ ExecCmd (buildOpenCmd t) = ExecCmd t.
Proof.
  rewrite buildOpenCmd_appends, freshBuild_openArgs.
  split; [reflexivity|]. split; [reflexivity|].
  split; [apply openArgs_length|].
  split; [|apply buildOpenCmd_frame].
  intros t' Hb Hs. rewrite freshBuild_openArgs, Hb, Hs. reflexivity.
Qed.

(** The same arguments are built for the example and for a [System] that
    differs from it in the vector and the program only. *)
Lemma buildOpenCmd_extends_witness :
  BaseArgs dockerSystem = BaseArgs exampleSystem
  /\ SystemArgs dockerSystem = SystemArgs exampleSystem
  /\ freshBuild dockerSystem = freshBuild exampleSystem.
Proof.
  split; [reflexivity|]. split; [reflexivity|].
  apply (proj1 (proj2 (proj2 (proj2 (buildOpenCmd_extends exampleSystem))))
           dockerSystem); reflexivity.
Defined.

Lemma ends_with_refl {A} (l : list A) : ends_with l l.
Proof. now exists []. Qed.

Lemma ends_with_cons {A} (x : A) (l tail : list A) :
  ends_with l tail -> ends_with (x :: l) tail.
Proof. intros [front ->]. now exists (x :: front). Qed.

Lemma ends_with_app {A} (l m tail : list A) :
  ends_with m tail -> ends_with (l ++ m) tail.
Proof. intros [front ->]. exists (l ++ front). now rewrite app_assoc. Qed.

Ltac ends_with_tail :=
  apply ends_with_app; cbn [app];
  repeat first [apply ends_with_refl | apply ends_with_cons].

(** X4.  The vector that [buildOpenCmd] leaves always ends with "-F" and a
    path that is not empty: the configured SSH config file when there is
    one, and "/dev/null" when there is none. *)
Theorem buildOpenCmd_config_last (t : System) :
  exists cfg,
    ends_with (elems (OpenCmd (buildOpenCmd t))) ["-F"; cfg]
    /\ cfg <> ""
    /\ (SSHConfigFile (SystemArgs t) <> "" -> cfg = SSHConfigFile (SystemArgs t))
    /\ (SSHConfigFile (SystemArgs t) = "" -> cfg = "/dev/null").
Proof.
  rewrite buildOpenCmd_appends. unfold openArgs. cbn [elems].
  destruct (nonempty_spec (SSHConfigFile (SystemArgs t))) as [Hy Hn].
  destruct (nonempty (SSHConfigFile (SystemArgs t))) eqn:E.
  - exists (SSHConfigFile (SystemArgs t)).
    split; [|split; [now apply Hy|split; [reflexivity|]]].
    + destruct (nonempty (AuthPrivateKey (SystemArgs t))),
               (nonempty (AuthUsername (BaseArgs t))),
               (AuthStrictKey (SystemArgs t)),
               (nonempty (SSHKnownHostsFile (SystemArgs t)));
        ends_with_tail.
    + intros H. now apply Hy in H.
  - exists "/dev/null".
    split; [|split; [discriminate|split; [|reflexivity]]].
    + destruct (nonempty (AuthPrivateKey (SystemArgs t))),
               (nonempty (AuthUsername (BaseArgs t))),
               (AuthStrictKey (SystemArgs t)),
               (nonempty (SSHKnownHostsFile (SystemArgs t)));
        ends_with_tail.
    + intros H. exfalso. apply H. now apply Hn.
Qed.

(** The example has no config file: its vector ends with "/dev/null". *)
Lemma buildOpenCmd_config_last_witness :
  SSHConfigFile (SystemArgs exampleSystem) = ""
  /\ exists cfg,
       ends_with (elems (OpenCmd (buildOpenCmd exampleSystem))) ["-F"; cfg]
       /\ cfg = "/dev/null".
Proof.
  split; [reflexivity|].
  destruct (buildOpenCmd_config_last exampleSystem)
    as (cfg & Hv & _ & _ & Hnull).
  exists cfg. split; [exact Hv|]. apply Hnull. reflexivity.
Defined.

(** X5.  The host-key options come right before the "-F" pair.  With
    strict checking disabled they are "StrictHostKeyChecking=no" and
    "UserKnownHostsFile=/dev/null" and the configured known-hosts file
    plays no part: the vector is the same for every known-hosts path.
    With strict checking enabled they are "StrictHostKeyChecking=yes",
    followed by the known-hosts file when one is configured and by
    nothing when none is. *)
Theorem buildOpenCmd_host_key (t : System) :
  (AuthStrictKey (SystemArgs t) = false ->
   (exists cfg,
       ends_with (elems (OpenCmd (buildOpenCmd t)))
         ["-o"; "StrictHostKeyChecking=no";
          "-o"; "UserKnownHostsFile=/dev/null"; "-F"; cfg])
   /\ forall path,
        OpenCmd (buildOpenCmd (set_SSHKnownHostsFile t path))
        = OpenCmd (buildOpenCmd t))
  /\ (AuthStrictKey (SystemArgs t) = true ->
      SSHKnownHostsFile (SystemArgs t) <> "" ->
      exists cfg,
        ends_with (elems (OpenCmd (buildOpenCmd t)))
          ["-o"; "StrictHostKeyChecking=yes"; "-o";
           String.append "UserKnownHostsFile="
                         (SSHKnownHostsFile (SystemArgs t));
           "-F"; cfg])
  /\ (AuthStrictKey (SystemArgs t) = true ->
      SSHKnownHostsFile (SystemArgs t) = "" ->
      exists cfg,
        ends_with (elems (OpenCmd (buildOpenCmd t)))
          ["-o"; "StrictHostKeyChecking=yes"; "-F"; cfg]).
Proof.
  split; [|split].
  - intros Hs. split.
    + rewrite buildOpenCmd_appends. unfold openArgs. rewrite Hs.
      cbn [negb elems].
      destruct (nonempty (AuthPrivateKey (SystemArgs t))),
               (nonempty (AuthUsername (BaseArgs t))),
               (nonempty (SSHConfigFile (SystemArgs t)));
        eexists; ends_with_tail.
    + intros path. rewrite !buildOpenCmd_appends. unfold openArgs.
      cbn [BaseArgs SystemArgs set_SSHKnownHostsFile AuthPrivateKey
           AuthStrictKey SSHConfigFile SSHKnownHostsFile OpenCmd].
      rewrite Hs. reflexivity.
  - intros Hs Hk. apply (proj1 (nonempty_spec _)) in Hk.
    rewrite buildOpenCmd_appends. unfold openArgs. rewrite Hs, Hk.
    cbn [negb elems].
    destruct (nonempty (AuthPrivateKey (SystemArgs t))),
             (nonempty (AuthUsername (BaseArgs t))),
             (nonempty (SSHConfigFile (SystemArgs t)));
      eexists; ends_with_tail.
  - intros Hs Hk. apply (proj2 (nonempty_spec _)) in Hk.
    rewrite buildOpenCmd_appends. unfold openArgs. rewrite Hs, Hk.
    cbn [negb elems].
    destruct (nonempty (AuthPrivateKey (SystemArgs t))),
             (nonempty (AuthUsername (BaseArgs t))),
             (nonempty (SSHConfigFile (SystemArgs t)));
      eexists; ends_with_tail.
Qed.

(** On the example, where strict checking is disabled, a known-hosts file
    changes nothing. *)
Lemma buildOpenCmd_host_key_witness :
  AuthStrictKey (SystemArgs exampleSystem) = false
  /\ OpenCmd (buildOpenCmd (set_SSHKnownHostsFile exampleSystem "/etc/hosts2"))
     = OpenCmd (buildOpenCmd exampleSystem).
Proof.
  split; [reflexivity|].
  apply (proj2 (proj1 (buildOpenCmd_host_key exampleSystem) eq_refl)).
Defined.

(** ** Opening again, and what opening leaves behind *)

Lemma closes_app (tr tr' : list Event) :
  closes (tr ++ tr') = closes tr ++ closes tr'.
Proof. unfold closes. apply flat_map_app. Qed.

Lemma errorLines_app (tr tr' : list Event) :
  errorLines (tr ++ tr') = errorLines tr ++ errorLines tr'.
Proof. unfold errorLines. apply flat_map_app. Qed.

Section Reopening.

Context {OS : Type} {P : Platform OS}.

(** The three events of an [Open]: the line that announces the command,
    the spawn, and the line that tells how it went. *)
Lemma Open_trace (st : state OS) :
  let t := opening (self st) in
  exists msg final,
    trace (exec Open st)
    = trace st
      ++ [EvLog LogDebug "debug" msg;
          EvSpawn (exec_Command (ExecCmd t) (elems (OpenCmd t))) (sizeOf t);
          final]
    /\ ((eval Open st = None
         /\ final = EvLog LogDebug "debug" "transport connection to host opened")
        \/ (exists err,
               eval Open st = Some err
               /\ final = EvLog LogError "error"
                            "failed opening transport connection to host")).
Proof.
  unfold opening, sizeOf. run_method.
  destruct (is_nil (OpenCmd (self st))); cbn [self os trace];
    match goal with
    | |- context [String.eqb (ExecCmd ?t) ""] =>
        destruct (String.eqb (ExecCmd t) "")
    end; cbn [self os trace];
    match goal with
    | |- context [pty_start ?c ?s ?o] => destruct (pty_start c s o) as [[f|err] os']
    end; cbn [self os trace fst snd];
    eexists _, _; rewrite <- !app_assoc; cbn [app];
    (split; [reflexivity|]); [left|right; exists err|left|right; exists err
                               |left|right; exists err|left|right; exists err];
    split; reflexivity.
Qed.

(** The three events of an [OpenNetconf]. *)
Lemma OpenNetconf_trace (st : state OS) :
  let t := openingNetconf (self st) in
  exists msg final,
    trace (exec OpenNetconf st)
    = trace st
      ++ [EvLog LogDebug "debug" msg;
          EvSpawn (exec_Command "ssh" (elems (OpenCmd t))) None;
          final]
    /\ ((eval OpenNetconf st = None
         /\ final = EvLog LogDebug "debug"
                      "netconf transport connection to host opened")
        \/ (exists err,
               eval OpenNetconf st = Some err
               /\ final = EvLog LogError "error"
                            "failed opening netconf transport connection to host")).
Proof.
  unfold openingNetconf. run_method.
  match goal with
  | |- context [pty_start ?c ?s ?o] => destruct (pty_start c s o) as [[f|err] os']
  end; cbn [self os trace fst snd];
  eexists _, _; rewrite <- !app_assoc; cbn [app];
  (split; [reflexivity|]); [left|right; exists err]; split; reflexivity.
Qed.

(** After [Open] the vector is not nil and the program is not empty. *)
Lemma opening_settled (t : System) :
  is_nil (OpenCmd (opening t)) = false
  /\ String.eqb (ExecCmd (opening t)) "" = false.
Proof.
  rewrite opening_OpenCmd, opening_ExecCmd. split.
  - destruct (is_nil (OpenCmd t)) eqn:E; [|exact E].
    now rewrite buildOpenCmd_appends.
  - destruct (String.eqb (ExecCmd t) "") eqn:E; [reflexivity|exact E].
Qed.

(** [Close] keeps the vector and the program, and spawns nothing. *)
Lemma Close_keeps (st : state OS) :
  OpenCmd (self (exec Close st)) = OpenCmd (self st)
  /\ ExecCmd (self (exec Close st)) = ExecCmd (self st)
  /\ BaseArgs (self (exec Close st)) = BaseArgs (self st)
  /\ SystemArgs (self (exec Close st)) = SystemArgs (self st)
  /\ spawned (trace (exec Close st)) = spawned (trace st).
Proof.
  run_method.
  destruct (fileObj (self st)) as [f|]; cbn [self os trace fst snd].
  - destruct (file_close f (os st)) as [err os'].
    cbn [self os trace fst snd OpenCmd ExecCmd BaseArgs SystemArgs set_fileObj].
    rewrite !spawned_app. cbn [spawned flat_map app]. rewrite !app_nil_r.
    repeat split.
  - cbn [self os trace fst snd OpenCmd ExecCmd BaseArgs SystemArgs set_fileObj].
    rewrite !spawned_app. cbn [spawned flat_map app]. rewrite !app_nil_r.
    repeat split.
Qed.

(** X6.  [Open] settles the command once: after a first [Open], successful
    or not, the vector is not nil and the program is not empty, and every
    later [Open] on a receiver that still holds them spawns the very same
    command, whatever host, port, user or other arguments the receiver
    holds by then.  In particular [Open], [Close], [Open] spawns the same
    command twice. *)
Theorem Open_again (st : state OS) :
  exists command,
    spawned (trace (exec Open st)) = spawned (trace st) ++ [command]
    /\ is_nil (OpenCmd (self (exec Open st))) = false
    /\ ExecCmd (self (exec Open st)) <> ""
    /\ (forall st2 : state OS,
           OpenCmd (self st2) = OpenCmd (self (exec Open st)) ->
           ExecCmd (self st2) = ExecCmd (self (exec Open st)) ->
           spawned (trace (exec Open st2)) = spawned (trace st2) ++ [command])
    /\ spawned (trace (exec Open (exec Close (exec Open st))))
       = spawned (trace st) ++ [command; command].
Proof.
  destruct (Open_fields st) as [HO HE].
  destruct (opening_settled (self st)) as [Hnil Hexec].
  assert (Hagain : forall st2 : state OS,
             OpenCmd (self st2) = OpenCmd (self (exec Open st)) ->
             ExecCmd (self st2) = ExecCmd (self (exec Open st)) ->
             spawned (trace (exec Open st2))
             = spawned (trace st2)
               ++ [exec_Command (ExecCmd (opening (self st)))
                                (elems (OpenCmd (opening (self st))))]).
  { intros st2 H1 H2. rewrite Open_spawned, opening_OpenCmd, opening_ExecCmd.
    rewrite H1, H2, HO, HE, Hnil, Hexec. reflexivity. }
  exists (exec_Command (ExecCmd (opening (self st)))
                       (elems (OpenCmd (opening (self st))))).
  split; [apply Open_spawned|].
  split; [now rewrite HO|].
  split; [rewrite HE; now apply String.eqb_neq|].
  split; [exact Hagain|].
  destruct (Close_keeps (exec Open st)) as (H1 & H2 & _ & _ & H3).
  rewrite (Hagain _ H1 H2), H3, Open_spawned, <- app_assoc. reflexivity.
Qed.

End Reopening.

(** The example opened, its host changed, and opened again: the command
    still names the first host. *)
Lemma Open_again_witness :
  spawned (trace (exec Open (initial exampleSystem healthy)))
  = [exec_Command "ssh" (freshBuild exampleSystem)]
  /\ spawned
       (trace
          (exec Open
             (initial
                (set_args (self (exec Open (initial exampleSystem healthy)))
                          {| Host := "192.168.1.9"; Port := 830;
                             AuthUsername := "root";
                             TimeoutSocket := fiveSeconds;
                             TimeoutTransport := thirtySeconds;
                             PtyHeight := 24; PtyWidth := 80 |}
                          exampleArgs)
                healthy)))
     = [exec_Command "ssh" (freshBuild exampleSystem)].
Proof.
  destruct (Open_again (initial exampleSystem healthy))
    as (command & Hfirst & _ & _ & Hagain & _).
  assert (Hc : command = exec_Command "ssh" (freshBuild exampleSystem)).
  { change (spawned (trace (initial exampleSystem healthy))) with (@nil Cmd)
      in Hfirst.
    cbn [app] in Hfirst.
    assert (H : spawned (trace (exec Open (initial exampleSystem healthy)))
                = [exec_Command "ssh" (freshBuild exampleSystem)])
      by (vm_compute; reflexivity).
    rewrite H in Hfirst. now injection Hfirst. }
  split; [vm_compute; reflexivity|].
  rewrite <- Hc.
  apply (Hagain (initial (set_args _ _ _) healthy)); reflexivity.
Defined.

(** ** What opening and closing do to the files *)

Lemma opening_BaseArgs (t : System) : BaseArgs (opening t) = BaseArgs t.
Proof.
  unfold opening.
  destruct (is_nil (OpenCmd t));
    match goal with
    | |- context [String.eqb (ExecCmd ?t) ""] =>
        destruct (String.eqb (ExecCmd t) "")
    end; cbn [BaseArgs set_ExecCmd]; try apply buildOpenCmd_frame; reflexivity.
Qed.

Section Files.

Context {OS : Type} {P : Platform OS}.

(** X7.  [Open] and [OpenNetconf] never close a file.  Called on a
    transport that is open already, a successful call puts the file of
    the process it has just started in [fileObj]; the file that was there
    is not closed, and nothing refers to it any more. *)
Theorem Open_never_closes (st : state OS) :
  closes (trace (exec Open st)) = closes (trace st)
  /\ closes (trace (exec OpenNetconf st)) = closes (trace st)
  /\ (eval Open st = None ->
      exists command size f,
        fst (pty_start command size (os st)) = Started f
        /\ fileObj (self (exec Open st)) = Some f)
  /\ (eval OpenNetconf st = None ->
      exists command size f,
        fst (pty_start command size (os st)) = Started f
        /\ fileObj (self (exec OpenNetconf st)) = Some f).
Proof.
  split; [|split; [|split]].
  - destruct (Open_trace st) as (msg & final & -> & [[_ ->]|(err & _ & ->)]);
      rewrite closes_app; cbn; apply app_nil_r.
  - destruct (OpenNetconf_trace st)
      as (msg & final & -> & [[_ ->]|(err & _ & ->)]);
      rewrite closes_app; cbn; apply app_nil_r.
  - intros Hok. pose proof (Open_run st) as H. cbv zeta in H.
    destruct (pty_start _ _ (os st)) as [[f|err] os'] eqn:E;
      destruct H as (_ & _ & _ & Hr & Hs); [|congruence].
    eexists _, _, f. rewrite E, Hs. split; reflexivity.
  - intros Hok. pose proof (OpenNetconf_run st) as H. cbv zeta in H.
    destruct (pty_start _ _ (os st)) as [[f|err] os'] eqn:E;
      destruct H as (_ & _ & _ & Hr & Hs); [|congruence].
    eexists _, _, f. rewrite E, Hs. split; reflexivity.
Qed.

(** X8.  [Open] makes exactly three events: the line that announces the
    command, one spawn on a pseudo-terminal with a size, and the line that
    tells how it went.  The rows and columns of that size are between 0
    and 65535, and they are the configured height and width when these
    are in that range.  [OpenNetconf] makes the same three events with a
    spawn that has no size. *)
Theorem Open_pty_size (st : state OS) :
  (exists msg command rows cols logger level line,
      trace (exec Open st)
      = trace st ++ [EvLog LogDebug "debug" msg;
                     EvSpawn command (Some {| Rows := rows; Cols := cols |});
                     EvLog logger level line]
      /\ 0 <= rows < 65536 /\ 0 <= cols < 65536
      /\ (0 <= PtyHeight (BaseArgs (self st)) < 65536 ->
          rows = PtyHeight (BaseArgs (self st)))
      /\ (0 <= PtyWidth (BaseArgs (self st)) < 65536 ->
          cols = PtyWidth (BaseArgs (self st))))
  /\ (exists msg command logger level line,
         trace (exec OpenNetconf st)
         = trace st ++ [EvLog LogDebug "debug" msg;
                        EvSpawn command None;
                        EvLog logger level line]).
Proof.
  split.
  - destruct (Open_trace st) as (msg & final & Htr & Hfinal).
    unfold sizeOf in Htr. rewrite opening_BaseArgs in Htr.
    exists msg, (exec_Command (ExecCmd (opening (self st)))
                              (elems (OpenCmd (opening (self st))))),
      (uint16 (PtyHeight (BaseArgs (self st)))),
      (uint16 (PtyWidth (BaseArgs (self st)))).
    destruct Hfinal as [[_ ->]|(err & _ & ->)]; eexists _, _, _;
      (split; [exact Htr|]); unfold uint16;
      repeat split;
      try (apply Z.mod_pos_bound; reflexivity);
      intros H; apply Z.mod_small; exact H.
  - destruct (OpenNetconf_trace st) as (msg & final & Htr & Hfinal).
    exists msg, (exec_Command "ssh" (elems (OpenCmd (openingNetconf (self st))))).
    destruct Hfinal as [[_ ->]|(err & _ & ->)]; eexists _, _, _; exact Htr.
Qed.

(** X9.  [Close] on an open transport closes exactly the file in
    [fileObj], once, and returns what closing it returned, error or nil.
    [Close] on a transport that is not open closes nothing, leaves the
    platform alone and returns [os.ErrInvalid], which is what a second
    [Close] in a row does.  In both cases [fileObj] is nil afterwards and
    the argument vector, the program and the arguments are kept. *)
Theorem Close_behaviour (st : state OS) :
  (forall f,
      fileObj (self st) = Some f ->
      closes (trace (exec Close st)) = closes (trace st) ++ [f]
      /\ eval Close st = fst (file_close f (os st))
      /\ os (exec Close st) = snd (file_close f (os st)))
  /\ (fileObj (self st) = None ->
      closes (trace (exec Close st)) = closes (trace st)
      /\ eval Close st = Some os_ErrInvalid
      /\ os (exec Close st) = os st)
  /\ (eval Close (exec Close st) = Some os_ErrInvalid
      /\ closes (trace (exec Close (exec Close st)))
         = closes (trace (exec Close st))
      /\ os (exec Close (exec Close st)) = os (exec Close st))
  /\ self (exec Close st) = set_fileObj (self st) None.
Proof.
  assert (Hopen : forall (s : state OS) f,
             fileObj (self s) = Some f ->
             closes (trace (exec Close s)) = closes (trace s) ++ [f]
             /\ eval Close s = fst (file_close f (os s))
             /\ os (exec Close s) = snd (file_close f (os s))).
  { intros s f Hf. run_method. rewrite Hf. cbn [self os trace fst snd].
    destruct (file_close f (os s)) as [err os']. cbn [self os trace fst snd].
    rewrite !closes_app. cbn. rewrite app_nil_r. repeat split. }
  assert (Hclosed : forall s : state OS,
             fileObj (self s) = None ->
             closes (trace (exec Close s)) = closes (trace s)
             /\ eval Close s = Some os_ErrInvalid
             /\ os (exec Close s) = os s).
  { intros s Hf. run_method. rewrite Hf. cbn [self os trace fst snd].
    rewrite !closes_app. cbn. rewrite app_nil_r. repeat split. }
  split; [apply Hopen|]. split; [apply Hclosed|]. split.
  - destruct (Hclosed (exec Close st) (proj1 (Close_run st))) as (H1 & H2 & H3).
    repeat split; assumption.
  - run_method. destruct (fileObj (self st)) as [f|];
      cbn [self os trace fst snd]; [|reflexivity].
    destruct (file_close f (os st)) as [err os']. reflexivity.
Qed.

End Files.

(** [Open] twice on the healthy platform: the second call succeeds and no
    file has been closed. *)
Lemma Open_never_closes_witness :
  eval Open (exec Open (initial exampleSystem healthy)) = None
  /\ closes (trace (exec Open (exec Open (initial exampleSystem healthy)))) = []
  /\ exists command size f,
       fst (pty_start command size (os (exec Open (initial exampleSystem healthy))))
       = Started f
       /\ fileObj (self (exec Open (exec Open (initial exampleSystem healthy))))
          = Some f.
Proof.
  destruct (Open_never_closes (exec Open (initial exampleSystem healthy)))
    as (Hc & _ & Hnew & _).
  split; [reflexivity|]. split.
  - rewrite Hc. reflexivity.
  - apply Hnew. reflexivity.
Defined.

(** The example has 24 rows and 80 columns. *)
Lemma Open_pty_size_witness :
  0 <= PtyHeight (BaseArgs (self (initial exampleSystem healthy))) < 65536
  /\ 0 <= PtyWidth (BaseArgs (self (initial exampleSystem healthy))) < 65536
  /\ exists msg command final,
       trace (exec Open (initial exampleSystem healthy))
       = [EvLog LogDebug "debug" msg;
          EvSpawn command (Some {| Rows := 24; Cols := 80 |});
          final].
Proof.
  split; [split; [discriminate|reflexivity]|].
  split; [split; [discriminate|reflexivity]|].
  destruct (proj1 (Open_pty_size (initial exampleSystem healthy)))
    as (msg & command & rows & cols & logger & level & line
        & Htr & _ & _ & Hr & Hc).
  exists msg, command, (EvLog logger level line).
  rewrite Htr, Hr, Hc; [reflexivity| |]; (split; [discriminate|reflexivity]).
Defined.

(** [Close] on the broken platform, where closing fails, on a transport
    whose handle is set; and [Close] on one that is not open. *)
Lemma Close_behaviour_witness :
  (fileObj (self (initial (set_fileObj exampleSystem (Some (mkFile 3))) broken))
   = Some (mkFile 3)
   /\ eval Close (initial (set_fileObj exampleSystem (Some (mkFile 3))) broken)
      = Some (os_Error "file already closed")
   /\ closes (trace (exec Close (initial (set_fileObj exampleSystem
                                            (Some (mkFile 3))) broken)))
      = [mkFile 3])
  /\ (fileObj (self (initial exampleSystem healthy)) = None
      /\ eval Close (initial exampleSystem healthy) = Some os_ErrInvalid).
Proof.
  destruct (Close_behaviour
              (initial (set_fileObj exampleSystem (Some (mkFile 3))) broken))
    as (Hopen & _).
  destruct (Close_behaviour (initial exampleSystem healthy))
    as (_ & Hclosed & _).
  split.
  - split; [reflexivity|].
    destruct (Hopen (mkFile 3) eq_refl) as (Hc & He & _).
    split; [exact He|exact Hc].
  - split; [reflexivity|]. apply Hclosed. reflexivity.
Defined.

(** ** Reading and writing on the session *)

Section Streams.

Context {OS : Type} {P : Platform OS}.

(** The state after the guarded read: the receiver is untouched, and the
    one line that can be logged is the error line. *)
Lemma readWithTimeout_exec (st : state OS) (n : Z) (pick : choice) :
  exists o evs,
    exec (readWithTimeout n pick) st
    = {| self := self st; os := o;
         trace := trace st ++ evs
                  ++ match eval (readWithTimeout n pick) st with
                     | Return (_, Some _) =>
                         [EvLog LogError "error"
                                "timed out reading from transport"]
                     | _ => []
                     end |}
    /\ (forall e, In e evs -> exists f k, e = EvRead f k).
Proof.
  unfold exec, eval, readWithTimeout, read, File_Read, bind, this, ret, log,
    emit, syscall.
  destruct st as [t o tr]. cbn [self os trace].
  destruct (make_bytes n) as [b|]; cbn [fst snd self os trace].
  2:{ exists o, []. rewrite !app_nil_r. split; [reflexivity|]. intros e []. }
  destruct (fileObj t) as [f|]; cbn [fst snd self os trace].
  - destruct (file_read f (Z.of_nat (List.length b)) o) as [r o'].
    cbn [fst snd self os trace].
    match goal with
    | |- context [transportTimeout ?d ?w pick] =>
        destruct (transportTimeout d w pick) as [[p [e|]]|]
    end; cbn [fst snd self os trace];
      exists o', [EvRead f (Z.of_nat (List.length b))];
      rewrite <- ?app_assoc, ?app_nil_r;
      (split; [reflexivity|]);
      intros e' [<-|[]]; eauto.
  - match goal with
    | |- context [transportTimeout ?d ?w pick] =>
        destruct (transportTimeout d w pick) as [[p [e|]]|]
    end; cbn [fst snd self os trace];
      exists o, []; rewrite ?app_nil_r;
      (split; [reflexivity|]); intros e' [].
Qed.

(** X10.  [Read] and [ReadN] never change the receiver, whatever they
    return: after a read that failed with [ErrTransportFailure] or timed
    out, [IsAlive] reports what it reported before, and no file has been
    closed and no process spawned.  They log one error line, "timed out
    reading from transport", exactly when they return an error, the
    transport failure included, and nothing when they return nil. *)
Theorem readWithTimeout_frame (st : state OS) (n : Z) (pick : choice) :
  self (exec (readWithTimeout n pick) st) = self st
  /\ eval IsAlive (exec (readWithTimeout n pick) st) = eval IsAlive st
  /\ closes (trace (exec (readWithTimeout n pick) st)) = closes (trace st)
  /\ spawned (trace (exec (readWithTimeout n pick) st)) = spawned (trace st)
  /\ errorLines (trace (exec (readWithTimeout n pick) st))
     = errorLines (trace st)
       ++ match eval (readWithTimeout n pick) st with
          | Return (_, Some _) => ["timed out reading from transport"]
          | _ => []
          end.
Proof.
  destruct (readWithTimeout_exec st n pick) as (o & evs & -> & Hevs).
  cbn [self trace].
  assert (Hc : closes evs = [] /\ spawned evs = [] /\ errorLines evs = []).
  { clear - Hevs. induction evs as [|e evs IH]; [repeat split|].
    destruct (Hevs e (or_introl eq_refl)) as (f & k & ->).
    destruct IH as (H1 & H2 & H3);
      [intros e' He'; apply Hevs; now right|].
    split; [exact H1|split; [exact H2|exact H3]]. }
  destruct Hc as (Hc1 & Hc2 & Hc3).
  rewrite !closes_app, !spawned_app, !errorLines_app, Hc1, Hc2, Hc3.
  cbn [app].
  split; [reflexivity|]. split; [reflexivity|].
  destruct (eval (readWithTimeout n pick) st) as [[p [e|]]| |]; cbn;
    rewrite ?app_nil_r; repeat split.
Qed.

(** X11.  With a negative size [make] panics before the stream is
    touched.  Once [make] has given the worker its buffer, [Read] and
    [ReadN] return, also when the read of the stream never does: when the
    stream blocks forever, or comes back only after the timer has expired,
    the caller gets the empty payload with [ErrTransportTimeout]; in the
    second case the bytes that the stream handed to the abandoned worker
    are not returned by this call, while the platform has moved on as the
    read left it. *)
Theorem readWithTimeout_late (st : state OS) (n : Z) (pick : choice) :
  (n < 0 ->
   eval (readWithTimeout n pick) st = Panics
   /\ exec (readWithTimeout n pick) st = st)
  /\ (forall b,
         make_bytes n = Some b ->
         exists out, eval (readWithTimeout n pick) st = Return out)
  /\ (forall b f os',
         make_bytes n = Some b -> fileObj (self st) = Some f ->
         file_read f (Z.of_nat (List.length b)) (os st) = (stream_blocks, os') ->
         eval (readWithTimeout n pick) st = Return timedOut)
  /\ (forall b f os' after data err,
         make_bytes n = Some b -> fileObj (self st) = Some f ->
         file_read f (Z.of_nat (List.length b)) (os st)
         = (stream_returns after data err, os') ->
         Z.max 0 (TimeoutTransport (BaseArgs (self st))) < Z.of_N after ->
         eval (readWithTimeout n pick) st = Return timedOut
         /\ os (exec (readWithTimeout n pick) st) = os').
Proof.
  assert (Hfile : forall b f, fileObj (self st) = Some f ->
            File_Read (fileObj (self st)) b st
            = (match fst (file_read f (Z.of_nat (List.length b)) (os st)) with
               | stream_returns after data err =>
                   let (b', k) := fill b data in read_returns after b' k err
               | stream_blocks => read_blocks
               end,
               {| self := self st;
                  os := snd (file_read f (Z.of_nat (List.length b)) (os st));
                  trace := trace st ++ [EvRead f (Z.of_nat (List.length b))] |})).
  { intros b f Hf. rewrite Hf. unfold File_Read, bind, emit, syscall, ret.
    cbn [self os trace].
    destruct (file_read f _ (os st)) as [r o']. reflexivity. }
  split; [|split; [|split]].
  - intros Hn. unfold eval, exec, readWithTimeout, read, make_bytes, bind,
      this, ret.
    destruct (Z.ltb_spec n 0); [|lia]. destruct st. split; reflexivity.
  - intros b Hb. rewrite readWithTimeout_run, read_run, Hb.
    match goal with
    | |- context [transportTimeout ?d ?f pick] =>
        destruct (transportTimeout_returns d f pick) as [out ->]
    end.
    now exists out.
  - intros b f os' Hb Hf Hread.
    rewrite readWithTimeout_run, read_run, Hb.
    unfold eval at 1. rewrite (Hfile b f Hf), Hread. cbn [fst].
    now rewrite transportTimeout_blocked.
  - intros b f os' after data err Hb Hf Hread Hlate. split.
    + rewrite readWithTimeout_run, read_run, Hb.
      unfold eval at 1. rewrite (Hfile b f Hf), Hread. cbn [fst].
      destruct (fill b data) as [b' k].
      destruct err; now rewrite transportTimeout_timer_first.
    + unfold exec, readWithTimeout, read, bind, this, ret, log, emit.
      rewrite Hb, (Hfile b f Hf), Hread. cbn [fst snd].
      destruct (fill b data) as [b' k].
      destruct err; rewrite transportTimeout_timer_first by exact Hlate;
        reflexivity.
Qed.

(** X12.  On a transport that is not open nothing reaches the platform.
    Once [make] has given the worker its buffer, the worker fails without
    reading any stream, so that [Read] and [ReadN] return a nil payload
    with [ErrTransportFailure], or the empty payload with
    [ErrTransportTimeout] if the timer of the guard is first; the only
    event they add is their error line.  [Write] returns [os.ErrInvalid]
    and does nothing else. *)
Theorem not_open (st : state OS) (n : Z) (pick : choice) (b : list byte)
    (input : slice byte) :
  fileObj (self st) = None ->
  make_bytes n = Some b ->
  (exists after,
      eval (read n) st
      = Some (Returns after {| result := snil;
                               error := Some ErrTransportFailure |}))
  /\ (eval (readWithTimeout n pick) st = Return (snil, Some ErrTransportFailure)
      \/ eval (readWithTimeout n pick) st = Return timedOut)
  /\ exec (readWithTimeout n pick) st
     = {| self := self st; os := os st;
          trace := trace st
                   ++ [EvLog LogError "error"
                             "timed out reading from transport"] |}
  /\ eval (Write input) st = Some os_ErrInvalid
  /\ exec (Write input) st = st.
Proof.
  intros Hf Hb.
  assert (Hread : exists after,
             eval (read n) st
             = Some (Returns after {| result := snil;
                                      error := Some ErrTransportFailure |})).
  { rewrite read_run, Hb, Hf. eexists. reflexivity. }
  split; [exact Hread|]. destruct Hread as [after Hread].
  split; [|split; [|split]].
  - rewrite readWithTimeout_run, Hread.
    destruct (transportTimeout_cases
                (TimeoutTransport (BaseArgs (self st)))
                (Returns after {| result := snil;
                                  error := Some ErrTransportFailure |}) pick)
      as [(a & r & [= <- <-] & ->)| ->]; [left|right]; reflexivity.
  - unfold eval in Hread.
    unfold exec, readWithTimeout, read, File_Read, bind, this, ret, log, emit
      in *.
    rewrite Hb, Hf in *. cbn [fst snd] in *.
    injection Hread as <-.
    match goal with
    | |- context [transportTimeout ?d ?w pick] =>
        destruct (transportTimeout_cases d w pick)
          as [(a & r & [= <- <-] & ->)| ->]
    end; reflexivity.
  - unfold eval, Write, File_Write, bind, this, ret. rewrite Hf. reflexivity.
  - unfold exec, Write, File_Write, bind, this, ret. rewrite Hf.
    destruct st. reflexivity.
Qed.

(** X13.  [Write] on an open transport hands all the bytes to the file in
    one write and returns what that write returned, error or nil; it
    logs nothing, also when the write fails, and it leaves the receiver
    as it was, so that [IsAlive] still reports true after a failed
    write. *)
Theorem Write_behaviour (st : state OS) (b : slice byte) (f : File) :
  fileObj (self st) = Some f ->
  eval (Write b) st = fst (file_write f (elems b) (os st))
  /\ exec (Write b) st
     = {| self := self st; os := snd (file_write f (elems b) (os st));
          trace := trace st ++ [EvWrite f (elems b)] |}
  /\ eval IsAlive (exec (Write b) st) = true.
Proof.
  intros Hf.
  unfold eval, exec, Write, File_Write, IsAlive, bind, this, ret, emit,
    syscall.
  rewrite Hf. cbn [self os trace fst snd].
  destruct (file_write f (elems b) (os st)) as [[e|] o'];
    cbn [fst snd self]; rewrite Hf; repeat split.
Qed.

End Streams.

(** [ReadN(4)] on a stream that hangs, and on one that answers after 40 s
    with a timeout of 30 s. *)
Lemma readWithTimeout_late_witness :
  make_bytes 4 = Some [x00; x00; x00; x00]
  /\ eval (readWithTimeout 4 choose_c) (exec Open (initial exampleSystem hung))
     = Return (sl [], Some ErrTransportTimeout)
  /\ eval (readWithTimeout 4 choose_c) (exec Open (initial exampleSystem slow))
     = Return (sl [], Some ErrTransportTimeout)
  /\ eval (readWithTimeout (-1) choose_c)
          (exec Open (initial exampleSystem slow))
     = Panics.
Proof.
  destruct (readWithTimeout_late (exec Open (initial exampleSystem hung))
              4 choose_c) as (_ & _ & Hhung & _).
  destruct (readWithTimeout_late (exec Open (initial exampleSystem slow))
              4 choose_c) as (_ & _ & _ & Hslow).
  destruct (readWithTimeout_late (exec Open (initial exampleSystem slow))
              (-1) choose_c) as (Hneg & _).
  split; [reflexivity|]. split; [|split].
  - apply (Hhung [x00; x00; x00; x00] (mkFile 3) hung); reflexivity.
  - apply (Hslow [x00; x00; x00; x00] (mkFile 3) slow 40000000000%N
                 [x68; x69] None); reflexivity.
  - apply Hneg. reflexivity.
Defined.

(** [ReadN(4)] and [Write] on the example before any [Open]. *)
Lemma not_open_witness :
  fileObj (self (initial exampleSystem healthy)) = None
  /\ make_bytes 4 = Some [x00; x00; x00; x00]
  /\ (eval (readWithTimeout 4 choose_timer) (initial exampleSystem healthy)
      = Return (snil, Some ErrTransportFailure)
      \/ eval (readWithTimeout 4 choose_timer) (initial exampleSystem healthy)
         = Return timedOut)
  /\ os (exec (readWithTimeout 4 choose_timer) (initial exampleSystem healthy))
     = healthy
  /\ eval (Write (sl [x68; x69])) (initial exampleSystem healthy)
     = Some os_ErrInvalid.
Proof.
  destruct (not_open (initial exampleSystem healthy) 4 choose_timer
              [x00; x00; x00; x00] (sl [x68; x69]) eq_refl eq_refl)
    as (_ & Hread & Hexec & Hwrite & _).
  split; [reflexivity|]. split; [reflexivity|].
  split; [exact Hread|]. split; [|exact Hwrite].
  rewrite Hexec. reflexivity.
Defined.

(** [Write] on the broken platform: the error of the write comes back and
    the transport still counts as alive. *)
Lemma Write_behaviour_witness :
  fileObj (self (initial (set_fileObj exampleSystem (Some (mkFile 3))) broken))
  = Some (mkFile 3)
  /\ eval (Write (sl [x68; x69]))
          (initial (set_fileObj exampleSystem (Some (mkFile 3))) broken)
     = Some (os_Error "input/output error")
  /\ eval IsAlive
       (exec (Write (sl [x68; x69]))
             (initial (set_fileObj exampleSystem (Some (mkFile 3))) broken))
     = true.
Proof.
  destruct (Write_behaviour
              (initial (set_fileObj exampleSystem (Some (mkFile 3))) broken)
              (sl [x68; x69]) (mkFile 3) eq_refl) as (He & _ & Ha).
  split; [reflexivity|]. split; [exact He|exact Ha].
Defined.
